(** * nbb/db_manager.py: the persistence layer of the NBB scraper

    A shallow embedding of [DatabaseManager] (src/nbb/db_manager.py): the
    context-manager protocol ([__enter__] / [__exit__]), schema creation,
    the five entity writers and the season query, over an explicit model of
    the PostgreSQL session the psycopg2 driver talks to. *)

From stdpp Require Import base option list gmap strings.
From Stdlib Require Import ZArith Lia.

Open Scope Z_scope.

(** ** Python values and scraped items *)

Module Py.

(** The scalar values a scraped item carries. A float is kept as its IEEE-754
    binary64 bit pattern. *)
Inductive pyval :=
  | PyNone
  | PyBool (b : bool)
  | PyInt (z : Z)
  | PyFloat (bits : Z)
  | PyStr (s : string).

#[global] Instance pyval_eq_dec : EqDecision pyval.
Proof. solve_decision. Defined.

(** Python truth value testing ([bool(v)]): [None], [False], a zero of either
    numeric type ([0], [0.0], [-0.0]) and the empty string are false. *)
Definition truthy (v : pyval) : bool :=
  match v with
  | PyNone => false
  | PyBool b => b
  | PyInt z => negb (z =? 0)
  | PyFloat bits => negb ((bits =? 0) || (bits =? 2 ^ 63))
  | PyStr s => negb (bool_decide (s = ""))
  end.

(** The builtin [all] over a list of values. *)
Definition all (vs : list pyval) : bool := forallb truthy vs.

(** A scraped item: a mapping from field names to values. *)
Abbreviation item := (gmap string pyval).

(** [ItemAdapter(item).get(field)]: the field's value, [None] when the item
    has no such field. *)
Definition adapter_get (it : item) (field : string) : pyval :=
  default PyNone (it !! field).

(** The exceptions that reach this module. [OtherError] stands for the
    subclasses of [Exception] outside psycopg2; [KeyboardInterrupt] is a
    [BaseException] that [except Exception] does not catch. *)
Inductive exn :=
  | NotNullViolation
  | ForeignKeyViolation
  | UniqueViolation
  | InFailedSqlTransaction
  | UndefinedTable
  | ProgrammingError
  | DataError
  | OperationalError
  | InterfaceError
  | PoolError
  | AttributeError
  | OtherError (name : string)
  | KeyboardInterrupt.

#[global] Instance exn_eq_dec : EqDecision exn.
Proof. solve_decision. Defined.

(** [isinstance(e, psycopg2.Error)]: every driver and pool exception. *)
Definition is_psycopg2_Error (e : exn) : bool :=
  match e with
  | NotNullViolation | ForeignKeyViolation | UniqueViolation
  | InFailedSqlTransaction | UndefinedTable | ProgrammingError | DataError
  | OperationalError | InterfaceError | PoolError => true
  | AttributeError | OtherError _ | KeyboardInterrupt => false
  end.

(** [isinstance(e, Exception)]. *)
Definition is_Exception (e : exn) : bool :=
  match e with
  | KeyboardInterrupt => false
  | _ => true
  end.

(** The integrity errors of the server: not-null, foreign-key, uniqueness. *)
Definition is_constraint_violation (e : exn) : bool :=
  match e with
  | NotNullViolation | ForeignKeyViolation | UniqueViolation => true
  | _ => false
  end.

End Py.

Import Py.

(** ** The relational store *)

Module Pg.

(** Rows of the five relations of [create_tables]. A nullable column is an
    [option]; DATE and TIME values are day and microsecond counts, FLOAT a
    binary64 bit pattern. *)
Record team_row := {
  team_id : string;
  team_name : option string;
  team_logo : option string }.

Record player_row := {
  player_id : Z;
  player_name : option string;
  player_icon_url : option string }.

Record roster_row := {
  roster_player_id : Z;
  roster_team_id : string;
  roster_season : string;
  roster_player_number : option string }.

Record game_row := {
  game_id : Z;
  game_date : option Z;
  game_time : option Z;
  home_team_id : option string;
  away_team_id : option string;
  home_team_score : option Z;
  away_team_score : option Z;
  game_round : option string;
  game_stage : option string;
  game_season : option string;
  game_arena : option string;
  game_link : option string }.

Record shot_row := {
  shot_id : Z;
  shot_player_id : option Z;
  shot_game_id : option Z;
  shot_team_id : option string;
  shot_quarter : option string;
  shot_time : option Z;
  shot_type : option string;
  shot_x_location : option Z;
  shot_y_location : option Z }.

#[global] Instance team_row_eq_dec : EqDecision team_row.
Proof. solve_decision. Defined.
#[global] Instance player_row_eq_dec : EqDecision player_row.
Proof. solve_decision. Defined.
#[global] Instance roster_row_eq_dec : EqDecision roster_row.
Proof. solve_decision. Defined.
#[global] Instance game_row_eq_dec : EqDecision game_row.
Proof. solve_decision. Defined.
#[global] Instance shot_row_eq_dec : EqDecision shot_row.
Proof. solve_decision. Defined.

(** The composite primary key of [player_teams_by_season_table]. *)
Definition roster_key (r : roster_row) : Z * string * string :=
  (roster_player_id r, roster_team_id r, roster_season r).

(** A database: each relation is absent ([None], before [CREATE TABLE]) or
    holds its rows in insertion order. *)
Record db := {
  teams_table : option (list team_row);
  players_table : option (list player_row);
  player_teams_by_season_table : option (list roster_row);
  games_table : option (list game_row);
  shots_table : option (list shot_row) }.

#[global] Instance db_eq_dec : EqDecision db.
Proof. solve_decision. Defined.

Definition empty_db : db :=
  {| teams_table := None; players_table := None;
     player_teams_by_season_table := None; games_table := None;
     shots_table := None |}.

Definition set_teams (d : db) (rows : list team_row) : db :=
  {| teams_table := Some rows; players_table := players_table d;
     player_teams_by_season_table := player_teams_by_season_table d;
     games_table := games_table d; shots_table := shots_table d |}.

Definition set_players (d : db) (rows : list player_row) : db :=
  {| teams_table := teams_table d; players_table := Some rows;
     player_teams_by_season_table := player_teams_by_season_table d;
     games_table := games_table d; shots_table := shots_table d |}.

Definition set_roster (d : db) (rows : list roster_row) : db :=
  {| teams_table := teams_table d; players_table := players_table d;
     player_teams_by_season_table := Some rows;
     games_table := games_table d; shots_table := shots_table d |}.

Definition set_games (d : db) (rows : list game_row) : db :=
  {| teams_table := teams_table d; players_table := players_table d;
     player_teams_by_season_table := player_teams_by_season_table d;
     games_table := Some rows; shots_table := shots_table d |}.

Definition set_shots (d : db) (rows : list shot_row) : db :=
  {| teams_table := teams_table d; players_table := players_table d;
     player_teams_by_season_table := player_teams_by_season_table d;
     games_table := games_table d; shots_table := Some rows |}.

(** The rows of a relation, none when the relation is absent. *)
Definition rows_of {A} (t : option (list A)) : list A := default [] t.

(** The outcome of one statement: the new database, the new last value of
    [shots_table_id_seq] and a result, or an error. The sequence is outside
    the transaction, so an error reports its value as well. *)
Inductive stmt_out (A : Type) :=
  | StmtOk (d : db) (seq : Z) (a : A)
  | StmtErr (e : exn) (seq : Z).
Arguments StmtOk {A} d seq a.
Arguments StmtErr {A} e seq.

Definition sql_stmt (A : Type) : Type := db -> Z -> stmt_out A.

(** What the server makes of a Python value sent for a column of each type
    (the driver's quoting followed by the server's input conversion), [None]
    when it rejects the value. [to_operand] is the conversion of a value
    compared with a VARCHAR column. Python's [None] never reaches these: it is
    sent as NULL. *)
Record server_casts := {
  to_integer : pyval -> option Z;
  to_varchar : nat -> pyval -> option string;
  to_text : pyval -> option string;
  to_date : pyval -> option Z;
  to_time : pyval -> option Z;
  to_float : pyval -> option Z;
  to_operand : pyval -> option string }.

(** A parameter for a nullable position: [None] is NULL; the outer [option]
    is the server's verdict on any other value. *)
Definition param {A} (cast : pyval -> option A) (v : pyval) : option (option A) :=
  match v with
  | PyNone => Some None
  | _ => Some <$> cast v
  end.

(** A foreign key holds when the referencing value is NULL or is a key of
    the referenced relation. *)
Definition fk_ok {K} `{EqDecision K} (v : option K) (keys : list K) : bool :=
  match v with
  | None => true
  | Some k => bool_decide (k ∈ keys)
  end.

Definition team_ids (d : db) : list string := team_id <$> rows_of (teams_table d).
Definition player_ids (d : db) : list Z := player_id <$> rows_of (players_table d).
Definition game_ids (d : db) : list Z := game_id <$> rows_of (games_table d).
Definition roster_keys (d : db) : list (Z * string * string) :=
  roster_key <$> rows_of (player_teams_by_season_table d).
Definition shot_ids (d : db) : list Z := shot_id <$> rows_of (shots_table d).

(** [INSERT ... ON CONFLICT (key) DO NOTHING]: the row is appended unless a
    stored row has its key. *)
Definition on_conflict_do_nothing {R K} `{EqDecision K}
    (key : R -> K) (row : R) (rows : list R) : list R :=
  if bool_decide (key row ∈ key <$> rows) then rows else rows ++ [row].

(** [INSERT ... ON CONFLICT (key) DO UPDATE SET c = EXCLUDED.c] for every
    non-key column [c]: a stored row with the key takes all the proposed
    values; without one the row is appended. *)
Definition on_conflict_do_update {R K} `{EqDecision K}
    (key : R -> K) (row : R) (rows : list R) : list R :=
  if bool_decide (key row ∈ key <$> rows)
  then (fun r => if bool_decide (key r = key row) then row else r) <$> rows
  else rows ++ [row].

(** The number of stored rows with a given key. *)
Definition count_key {R K} `{EqDecision K} (key : R -> K) (k : K) (rows : list R) : nat :=
  length (filter (fun r => key r = k) rows).





(** The kinds of column the five relations have: INTEGER and FLOAT, VARCHAR
    and TEXT, DATE and TIME. *)
Inductive column_kind := NumberColumn | TextColumn | DateTimeColumn.

(** The error of the server for a value it rejects. The driver sends a
    [bool] as a boolean literal and an [int] or [float] as a number: where
    the column's type has no assignment cast from that type the statement
    does not type-check (a [ProgrammingError]); any other rejected value is
    bad input for the column's type (a [DataError]). *)
Definition rejection (k : column_kind) (v : pyval) : exn :=
  match k, v with
  | NumberColumn, PyBool _ => ProgrammingError
  | DateTimeColumn, PyBool _ => ProgrammingError
  | DateTimeColumn, PyInt _ => ProgrammingError
  | DateTimeColumn, PyFloat _ => ProgrammingError
  | _, _ => DataError
  end.

(** Column conversion inside a statement. The driver itself refuses a
    string with a NUL character before anything is sent; items are taken
    not to carry one. *)
Definition col {A} (k : column_kind) (cast : pyval -> option A) (v : pyval) :
    exn + option A :=
  match param cast v with
  | Some x => inr x
  | None => inl (rejection k v)
  end.

(** The NOT NULL constraint of a column (a primary-key column has it too). *)
Definition not_null {A} (x : option A) : exn + A :=
  match x with
  | Some a => inr a
  | None => inl NotNullViolation
  end.

Definition check (b : bool) (e : exn) : exn + unit :=
  if b then inr tt else inl e.

Definition sum_bind {A B} (m : exn + A) (k : A -> exn + B) : exn + B :=
  match m with
  | inl e => inl e
  | inr a => k a
  end.

Notation "'let*' x := m 'in' k" := (sum_bind m (fun x => k))
  (at level 10, x name, m at level 100, k at level 200, only parsing).

Section Statements.

Context (pg : server_casts).

(** [INSERT INTO teams_table (id, name, logo) VALUES (%s, %s, %s)
     ON CONFLICT (id) DO NOTHING] *)
Definition team_values (v_id v_name v_logo : pyval) : exn + team_row :=
  let* id := col TextColumn (to_varchar pg 100) v_id in
  let* name := col TextColumn (to_varchar pg 50) v_name in
  let* logo := col TextColumn (to_text pg) v_logo in
  let* id := not_null id in
  inr {| team_id := id; team_name := name; team_logo := logo |}.

Definition sql_insert_team (v_id v_name v_logo : pyval) : sql_stmt unit :=
  fun d seq =>
  match teams_table d with
  | None => StmtErr UndefinedTable seq
  | Some rows =>
    match team_values v_id v_name v_logo with
    | inl e => StmtErr e seq
    | inr row => StmtOk (set_teams d (on_conflict_do_nothing team_id row rows)) seq tt
    end
  end.

(** [INSERT INTO players_table (id, player_name, player_icon_url)
     VALUES (%s, %s, %s) ON CONFLICT (id) DO NOTHING] *)
Definition player_values (v_id v_name v_icon : pyval) : exn + player_row :=
  let* id := col NumberColumn (to_integer pg) v_id in
  let* name := col TextColumn (to_varchar pg 50) v_name in
  let* icon := col TextColumn (to_text pg) v_icon in
  let* id := not_null id in
  inr {| player_id := id; player_name := name; player_icon_url := icon |}.

Definition sql_insert_player (v_id v_name v_icon : pyval) : sql_stmt unit :=
  fun d seq =>
  match players_table d with
  | None => StmtErr UndefinedTable seq
  | Some rows =>
    match player_values v_id v_name v_icon with
    | inl e => StmtErr e seq
    | inr row => StmtOk (set_players d (on_conflict_do_nothing player_id row rows)) seq tt
    end
  end.

(** [INSERT INTO player_teams_by_season_table
       (player_id, player_team_id, season, player_number)
     VALUES (%s, %s, %s, %s)
     ON CONFLICT (player_id, player_team_id, season) DO NOTHING].
    The foreign keys are checked for a row that is inserted; a row that the
    conflict clause absorbs is not. *)
Definition roster_values (v_player v_team v_season v_number : pyval) : exn + roster_row :=
  let* player := col NumberColumn (to_integer pg) v_player in
  let* team := col TextColumn (to_varchar pg 100) v_team in
  let* season := col TextColumn (to_varchar pg 20) v_season in
  let* number := col TextColumn (to_varchar pg 10) v_number in
  let* player := not_null player in
  let* team := not_null team in
  let* season := not_null season in
  inr {| roster_player_id := player; roster_team_id := team;
         roster_season := season; roster_player_number := number |}.

Definition roster_fks (row : roster_row) (d : db) : exn + unit :=
  let* _ := check (fk_ok (Some (roster_player_id row)) (player_ids d)) ForeignKeyViolation in
  check (fk_ok (Some (roster_team_id row)) (team_ids d)) ForeignKeyViolation.

Definition sql_insert_player_team_by_season
    (v_player v_team v_season v_number : pyval) : sql_stmt unit :=
  fun d seq =>
  match player_teams_by_season_table d with
  | None => StmtErr UndefinedTable seq
  | Some rows =>
    match roster_values v_player v_team v_season v_number with
    | inl e => StmtErr e seq
    | inr row =>
      if bool_decide (roster_key row ∈ roster_key <$> rows) then StmtOk d seq tt
      else
        match roster_fks row d with
        | inl e => StmtErr e seq
        | inr _ => StmtOk (set_roster d (rows ++ [row])) seq tt
        end
    end
  end.

(** [INSERT INTO games_table (id, game_date, ..., link) VALUES (...)
     ON CONFLICT (id) DO UPDATE SET game_date = EXCLUDED.game_date, ...,
     link = EXCLUDED.link]: all eleven non-key columns are overwritten. The
    foreign keys of the inserted or updated row are checked. *)
Definition game_values
    (v_id v_date v_time v_home v_away v_home_score v_away_score
     v_round v_stage v_season v_arena v_link : pyval) : exn + game_row :=
  let* id := col NumberColumn (to_integer pg) v_id in
  let* date := col DateTimeColumn (to_date pg) v_date in
  let* time := col DateTimeColumn (to_time pg) v_time in
  let* home := col TextColumn (to_varchar pg 100) v_home in
  let* away := col TextColumn (to_varchar pg 100) v_away in
  let* home_score := col NumberColumn (to_integer pg) v_home_score in
  let* away_score := col NumberColumn (to_integer pg) v_away_score in
  let* round := col TextColumn (to_varchar pg 30) v_round in
  let* stage := col TextColumn (to_varchar pg 30) v_stage in
  let* season := col TextColumn (to_varchar pg 20) v_season in
  let* arena := col TextColumn (to_varchar pg 100) v_arena in
  let* link := col TextColumn (to_text pg) v_link in
  let* id := not_null id in
  inr {| game_id := id; game_date := date; game_time := time;
         home_team_id := home; away_team_id := away;
         home_team_score := home_score; away_team_score := away_score;
         game_round := round; game_stage := stage; game_season := season;
         game_arena := arena; game_link := link |}.

Definition game_fks (row : game_row) (d : db) : exn + unit :=
  let* _ := check (fk_ok (home_team_id row) (team_ids d)) ForeignKeyViolation in
  check (fk_ok (away_team_id row) (team_ids d)) ForeignKeyViolation.

Definition sql_insert_game
    (v_id v_date v_time v_home v_away v_home_score v_away_score
     v_round v_stage v_season v_arena v_link : pyval) : sql_stmt unit :=
  fun d seq =>
  match games_table d with
  | None => StmtErr UndefinedTable seq
  | Some rows =>
    match game_values v_id v_date v_time v_home v_away v_home_score v_away_score
            v_round v_stage v_season v_arena v_link with
    | inl e => StmtErr e seq
    | inr row =>
      match game_fks row d with
      | inl e => StmtErr e seq
      | inr _ => StmtOk (set_games d (on_conflict_do_update game_id row rows)) seq tt
      end
    end
  end.

(** The last value the sequence of an [id SERIAL] column can give: the
    column is a 4-byte integer. *)
Definition serial_max : Z := 2 ^ 31 - 1.

(** [INSERT INTO shots_table (player_id, game_id, team_id, shot_quarter,
       shot_time, shot_type, shot_x_location, shot_y_location)
     VALUES (%s, %s, %s, %s, %s, %s, %s, %s)]: no conflict clause. The
    [id SERIAL] column takes the next value of its sequence, which stays
    consumed when the primary key or a foreign key then rejects the row. A
    sequence that has given [serial_max] gives no further value: the
    statement fails (a [DataError]) and the sequence stays where it is. *)
Definition shot_values
    (v_player v_game v_team v_quarter v_time v_type v_x v_y : pyval)
    (id : Z) : exn + shot_row :=
  let* player := col NumberColumn (to_integer pg) v_player in
  let* game := col NumberColumn (to_integer pg) v_game in
  let* team := col TextColumn (to_varchar pg 100) v_team in
  let* quarter := col TextColumn (to_varchar pg 10) v_quarter in
  let* time := col DateTimeColumn (to_time pg) v_time in
  let* type := col TextColumn (to_varchar pg 20) v_type in
  let* x := col NumberColumn (to_float pg) v_x in
  let* y := col NumberColumn (to_float pg) v_y in
  inr {| shot_id := id;
         shot_player_id := player; shot_game_id := game; shot_team_id := team;
         shot_quarter := quarter; shot_time := time; shot_type := type;
         shot_x_location := x; shot_y_location := y |}.

Definition shot_constraints (row : shot_row) (rows : list shot_row) (d : db) : exn + unit :=
  let* _ := check (negb (bool_decide (shot_id row ∈ shot_id <$> rows))) UniqueViolation in
  let* _ := check (fk_ok (shot_player_id row) (player_ids d)) ForeignKeyViolation in
  let* _ := check (fk_ok (shot_game_id row) (game_ids d)) ForeignKeyViolation in
  check (fk_ok (shot_team_id row) (team_ids d)) ForeignKeyViolation.

Definition sql_insert_shot
    (v_player v_game v_team v_quarter v_time v_type v_x v_y : pyval) : sql_stmt unit :=
  fun d seq =>
  match shots_table d with
  | None => StmtErr UndefinedTable seq
  | Some rows =>
    match shot_values v_player v_game v_team v_quarter v_time v_type v_x v_y (seq + 1) with
    | inl e => StmtErr e seq
    | inr row =>
      if bool_decide (seq + 1 <= serial_max) then
        match shot_constraints row rows d with
        | inl e => StmtErr e (seq + 1)
        | inr _ => StmtOk (set_shots d (rows ++ [row])) (seq + 1) tt
        end
      else StmtErr DataError seq
    end
  end.

(** [SELECT DISTINCT g.id FROM games_table g WHERE g.season = %s]. A NULL
    operand compares equal to nothing. *)
Definition sql_select_game_ids (v_season : pyval) : sql_stmt (list Z) :=
  fun d seq =>
  match games_table d with
  | None => StmtErr UndefinedTable seq
  | Some rows =>
    match param (to_operand pg) v_season with
    | None => StmtErr ProgrammingError seq
    | Some operand =>
      let matching :=
        filter (fun r => is_Some operand /\ game_season r = operand) rows in
      StmtOk d seq (remove_dups (game_id <$> matching))
    end
  end.

End Statements.

(** *** Schema definition *)

Inductive table_name :=
  | teams | players | player_teams_by_season | games | shots.

#[global] Instance table_name_eq_dec : EqDecision table_name.
Proof. solve_decision. Defined.

Definition table_exists (d : db) (t : table_name) : bool :=
  match t with
  | teams => bool_decide (is_Some (teams_table d))
  | players => bool_decide (is_Some (players_table d))
  | player_teams_by_season => bool_decide (is_Some (player_teams_by_season_table d))
  | games => bool_decide (is_Some (games_table d))
  | shots => bool_decide (is_Some (shots_table d))
  end.

Definition create_empty (d : db) (t : table_name) : db :=
  match t with
  | teams => set_teams d []
  | players => set_players d []
  | player_teams_by_season => set_roster d []
  | games => set_games d []
  | shots => set_shots d []
  end.

(** One [CREATE TABLE IF NOT EXISTS] statement: the relation it defines and
    the relations its [REFERENCES] clauses name. *)
Record create_table := {
  ct_table : table_name;
  ct_references : list table_name }.

(** [CREATE TABLE IF NOT EXISTS t (...)]: skipped (with a notice) when [t]
    exists; otherwise every referenced relation must exist, and creating
    [shots_table] creates its sequence, whose first value will be 1. *)
Definition sql_create_table (c : create_table) : sql_stmt unit :=
  fun d seq =>
  if table_exists d (ct_table c) then StmtOk d seq tt
  else if forallb (table_exists d) (ct_references c)
  then StmtOk (create_empty d (ct_table c))
              (if bool_decide (ct_table c = shots) then 0 else seq) tt
  else StmtErr UndefinedTable seq.

(** Several statements sent in one [execute]: run in order, the first error
    ends the run. *)
Fixpoint sql_script (cs : list create_table) : sql_stmt unit :=
  fun d seq =>
  match cs with
  | [] => StmtOk d seq tt
  | c :: cs' =>
    match sql_create_table c d seq with
    | StmtOk d' seq' _ => sql_script cs' d' seq'
    | StmtErr e seq' => StmtErr e seq'
    end
  end.

(** The five statements of [create_tables], in the order of the source. *)
Definition schema_ddl : list create_table :=
  [ {| ct_table := teams; ct_references := [] |};
    {| ct_table := players; ct_references := [] |};
    {| ct_table := player_teams_by_season; ct_references := [players; teams] |};
    {| ct_table := games; ct_references := [teams; teams] |};
    {| ct_table := shots; ct_references := [players; games; teams] |} ].

(** A script is in dependency order when each statement references only
    relations that an earlier statement of the script defines. *)
Fixpoint in_dependency_order (defined : list table_name) (cs : list create_table) : bool :=
  match cs with
  | [] => true
  | c :: cs' =>
    forallb (fun t => bool_decide (t ∈ defined)) (ct_references c)
    && in_dependency_order (ct_table c :: defined) cs'
  end.

(** The statements without a foreign key stand before all the others. *)
Fixpoint fk_free_first (cs : list create_table) : bool :=
  match cs with
  | [] => true
  | c :: cs' =>
    match ct_references c with
    | [] => fk_free_first cs'
    | _ :: _ => forallb (fun c' => negb (bool_decide (ct_references c' = []))) cs'
    end
  end.

(** A database with every absent relation created empty and every present
    relation as it is. *)
Definition create_missing (d : db) : db :=
  {| teams_table := Some (rows_of (teams_table d));
     players_table := Some (rows_of (players_table d));
     player_teams_by_season_table := Some (rows_of (player_teams_by_season_table d));
     games_table := Some (rows_of (games_table d));
     shots_table := Some (rows_of (shots_table d)) |}.

End Pg.

Import Pg.

(** ** The session, the driver and the manager object *)

Module Session.

(** The calls of the driver that can raise for reasons outside the model (a
    lost connection, an exhausted pool): [Some e] makes the call raise [e]. *)
Record driver_faults := {
  getconn_fault : option exn;
  close_fault : option exn;
  commit_fault : option exn;
  rollback_fault : option exn;
  putconn_fault : option exn }.

Definition no_faults : driver_faults :=
  {| getconn_fault := None; close_fault := None; commit_fault := None;
     rollback_fault := None; putconn_fault := None |}.

Inductive log_level := INFO | WARNING | ERROR.

(** A record of the module's logger: its level, the method that logged it
    and the exception it reports, if any. *)
Record log_record := {
  log_level_of : log_level;
  log_site : string;
  log_exn : option exn }.

(** The state a [DatabaseManager] runs in: the committed database, the view
    of the open transaction of the manager's connection, the server's flag
    for a failed transaction, the last value of [shots_table_id_seq], whether
    the cursor is open, the number of connections checked out of [POOL], the
    fields [self.conn] and [self.cur] ([false] for [None]), the driver's
    faults and the log. *)
Record state := {
  committed : db;
  working : db;
  tx_aborted : bool;
  shots_seq : Z;
  cur_open : bool;
  pool_used : nat;
  self_conn : bool;
  self_cur : bool;
  faults : driver_faults;
  log : list log_record }.

Definition set_tx (s : state) (c w : db) (aborted : bool) : state :=
  {| committed := c; working := w; tx_aborted := aborted;
     shots_seq := shots_seq s; cur_open := cur_open s; pool_used := pool_used s;
     self_conn := self_conn s; self_cur := self_cur s; faults := faults s;
     log := log s |}.

Definition set_shots_seq (s : state) (seq : Z) : state :=
  {| committed := committed s; working := working s; tx_aborted := tx_aborted s;
     shots_seq := seq; cur_open := cur_open s; pool_used := pool_used s;
     self_conn := self_conn s; self_cur := self_cur s; faults := faults s;
     log := log s |}.

Definition set_cur_open (s : state) (b : bool) : state :=
  {| committed := committed s; working := working s; tx_aborted := tx_aborted s;
     shots_seq := shots_seq s; cur_open := b; pool_used := pool_used s;
     self_conn := self_conn s; self_cur := self_cur s; faults := faults s;
     log := log s |}.

Definition set_pool_used (s : state) (n : nat) : state :=
  {| committed := committed s; working := working s; tx_aborted := tx_aborted s;
     shots_seq := shots_seq s; cur_open := cur_open s; pool_used := n;
     self_conn := self_conn s; self_cur := self_cur s; faults := faults s;
     log := log s |}.

Definition set_self_conn (s : state) (b : bool) : state :=
  {| committed := committed s; working := working s; tx_aborted := tx_aborted s;
     shots_seq := shots_seq s; cur_open := cur_open s; pool_used := pool_used s;
     self_conn := b; self_cur := self_cur s; faults := faults s;
     log := log s |}.

Definition set_self_cur (s : state) (b : bool) : state :=
  {| committed := committed s; working := working s; tx_aborted := tx_aborted s;
     shots_seq := shots_seq s; cur_open := cur_open s; pool_used := pool_used s;
     self_conn := self_conn s; self_cur := b; faults := faults s;
     log := log s |}.

Definition set_faults (s : state) (f : driver_faults) : state :=
  {| committed := committed s; working := working s; tx_aborted := tx_aborted s;
     shots_seq := shots_seq s; cur_open := cur_open s; pool_used := pool_used s;
     self_conn := self_conn s; self_cur := self_cur s; faults := f;
     log := log s |}.

Definition add_log (s : state) (r : log_record) : state :=
  {| committed := committed s; working := working s; tx_aborted := tx_aborted s;
     shots_seq := shots_seq s; cur_open := cur_open s; pool_used := pool_used s;
     self_conn := self_conn s; self_cur := self_cur s; faults := faults s;
     log := log s ++ [r] |}.

(** *** Computations that return or raise *)

Inductive outcome (A : Type) :=
  | Return (a : A)
  | Raise (e : exn).
Arguments Return {A} a.
Arguments Raise {A} e.

Definition M (A : Type) : Type := state -> outcome A * state.

Definition ret {A} (a : A) : M A := fun s => (Return a, s).

Definition raise {A} (e : exn) : M A := fun s => (Raise e, s).

Definition bind {A B} (m : M A) (k : A -> M B) : M B :=
  fun s =>
  match m s with
  | (Return a, s') => k a s'
  | (Raise e, s') => (Raise e, s')
  end.

Notation "x <- m ;; k" := (bind m (fun x => k))
  (at level 100, m at next level, right associativity).
Notation "m ;; k" := (bind m (fun _ => k))
  (at level 100, right associativity).

(** [try: body  except classes as e: handler e]: an exception of [body]
    that the clause matches runs the handler; any other propagates. *)
Definition try_except {A} (body : M A) (classes : exn -> bool) (handler : exn -> M A) : M A :=
  fun s =>
  match body s with
  | (Return a, s') => (Return a, s')
  | (Raise e, s') => if classes e then handler e s' else (Raise e, s')
  end.

(** [if c: m], with nothing to do otherwise. *)
Definition when (c : bool) (m : M unit) : M unit :=
  if c then m else ret tt.

(** *** The logger *)

Definition logger (lvl : log_level) (site : string) (e : option exn) : M unit :=
  fun s => (Return tt, add_log s {| log_level_of := lvl; log_site := site; log_exn := e |}).

Definition logger_info site := logger INFO site None.
Definition logger_warning site := logger WARNING site None.
Definition logger_error site e := logger ERROR site (Some e).

(** *** The pool, the connection and the cursor *)

Definition maxconn : nat := 32.

(** [POOL.getconn()]: raises [PoolError] when all [maxconn] connections are
    checked out. A pooled connection is idle: its transaction starts from
    the committed database. *)
Definition POOL_getconn : M unit :=
  fun s =>
  match getconn_fault (faults s) with
  | Some e => (Raise e, s)
  | None =>
    if bool_decide (maxconn <= pool_used s)%nat then (Raise PoolError, s)
    else (Return tt,
          set_pool_used (set_tx s (committed s) (committed s) false) (S (pool_used s)))
  end.

(** [POOL.putconn(conn)]. *)
Definition POOL_putconn : M unit :=
  fun s =>
  match putconn_fault (faults s) with
  | Some e => (Raise e, s)
  | None => (Return tt, set_pool_used s (Nat.pred (pool_used s)))
  end.

(** [self.conn.cursor()]. *)
Definition conn_cursor : M unit :=
  fun s => (Return tt, set_cur_open s true).

(** [self.cur.close()]. *)
Definition cur_close : M unit :=
  fun s =>
  match close_fault (faults s) with
  | Some e => (Raise e, s)
  | None => (Return tt, set_cur_open s false)
  end.

(** [self.conn.commit()]: the transaction's changes become the committed
    database; the COMMIT of a failed transaction is a rollback. *)
Definition conn_commit : M unit :=
  fun s =>
  if negb (self_conn s) then (Raise AttributeError, s)
  else
    match commit_fault (faults s) with
    | Some e => (Raise e, s)
    | None =>
      if tx_aborted s then (Return tt, set_tx s (committed s) (committed s) false)
      else (Return tt, set_tx s (working s) (working s) false)
    end.

(** [self.conn.rollback()]: the transaction's changes are dropped. On
    [self.conn = None] the attribute lookup raises. *)
Definition conn_rollback : M unit :=
  fun s =>
  if negb (self_conn s) then (Raise AttributeError, s)
  else
    match rollback_fault (faults s) with
    | Some e => (Raise e, s)
    | None => (Return tt, set_tx s (committed s) (committed s) false)
    end.

(** [self.cur.execute(stmt)]: a closed cursor and a failed transaction
    refuse the statement; a statement that fails changes nothing and leaves
    the transaction failed. *)
Definition cur_execute {A} (stmt : sql_stmt A) : M A :=
  fun s =>
  if negb (self_cur s) then (Raise AttributeError, s)
  else if negb (cur_open s) then (Raise InterfaceError, s)
  else if tx_aborted s then (Raise InFailedSqlTransaction, s)
  else
    match stmt (working s) (shots_seq s) with
    | StmtOk d seq a => (Return a, set_shots_seq (set_tx s (committed s) d false) seq)
    | StmtErr e seq => (Raise e, set_shots_seq (set_tx s (committed s) (working s) true) seq)
    end.

(** Reading and assigning the manager's fields. *)
Definition read {A} (f : state -> A) : M A := fun s => (Return (f s), s).

Definition assign_conn : M unit := fun s => (Return tt, set_self_conn s true).

Definition assign_cur : M unit := fun s => (Return tt, set_self_cur s true).

End Session.

Import Session.

(** ** class DatabaseManager *)

Module DatabaseManager.

Section Methods.

Context (pg : server_casts).

(** [__enter__] (source lines 55-64). [autocommit = False] is the model's
    only mode: every statement runs in the open transaction. *)
Definition __enter__ : M unit :=
  try_except
    (POOL_getconn ;;
     assign_conn ;;
     conn_cursor ;;
     assign_cur ;;
     ret tt)
    is_Exception
    (fun e => logger_error "__enter__" e ;; raise e).

(** [__exit__] (source lines 66-76); [exc] is the exception that left the
    [with] body, if any. The method returns [None]. *)
Definition __exit__ (exc : option exn) : M unit :=
  cur <- read self_cur ;;
  when cur cur_close ;;
  conn <- read self_conn ;;
  when conn
    (match exc with
     | None => conn_commit
     | Some exc_val => conn_rollback ;; logger_error "__exit__" exc_val
     end ;;
     POOL_putconn).

(** The statement [with DatabaseManager(DB_CONFIG) as m: body]: after
    [__enter__] the body runs; [__exit__] is called with the body's
    exception or with none. As [__exit__] returns [None], the body's
    exception is raised again once it returns; an exception raised by
    [__exit__] itself is the one that leaves the statement. *)
Definition with_DatabaseManager {A} (body : M A) : M A :=
  fun s =>
  match __enter__ s with
  | (Raise e, s1) => (Raise e, s1)
  | (Return _, s1) =>
    match body s1 with
    | (Return a, s2) =>
      match __exit__ None s2 with
      | (Return _, s3) => (Return a, s3)
      | (Raise e', s3) => (Raise e', s3)
      end
    | (Raise e, s2) =>
      match __exit__ (Some e) s2 with
      | (Return _, s3) => (Raise e, s3)
      | (Raise e', s3) => (Raise e', s3)
      end
    end
  end.

(** [create_tables] (source lines 78-140): the five statements go to the
    server in one [execute]. *)
Definition create_tables : M unit :=
  try_except
    (cur_execute (sql_script schema_ddl) ;;
     logger_info "create_tables")
    is_Exception
    (fun e =>
       logger_error "create_tables" e ;;
       conn_rollback ;;
       raise e).

(** [get_id_games_by_season] (source lines 142-164): [fetchall] hands back
    the rows of the query, of which the method returns the first column. *)
Definition get_id_games_by_season (season : pyval) : M (list Z) :=
  try_except
    (results <- cur_execute (sql_select_game_ids pg season) ;;
     ret results)
    is_Exception
    (fun e =>
       logger_error "get_id_games_by_season" e ;;
       conn_rollback ;;
       raise e).

(** [insert_team] (source lines 165-187). *)
Definition insert_team (team_item : item) : M unit :=
  try_except
    (let team_id := adapter_get team_item "id" in
     let name := adapter_get team_item "name" in
     let logo := adapter_get team_item "logo" in
     if negb (truthy team_id) then
       logger_warning "insert_team" ;; ret tt
     else
       cur_execute (sql_insert_team pg team_id name logo))
    is_psycopg2_Error
    (fun e =>
       conn_rollback ;;
       logger_error "insert_team" e ;;
       raise e).

(** [insert_player] (source lines 189-211). *)
Definition insert_player (player_item : item) : M unit :=
  try_except
    (let player_id := adapter_get player_item "player_id" in
     let player_name := adapter_get player_item "player_name" in
     let player_icon_url := adapter_get player_item "player_icon_url" in
     if negb (truthy player_id) then
       logger_warning "insert_player" ;; ret tt
     else
       cur_execute (sql_insert_player pg player_id player_name player_icon_url))
    is_psycopg2_Error
    (fun e =>
       conn_rollback ;;
       logger_error "insert_player" e ;;
       raise e).

(** [insert_player_team_by_season] (source lines 213-236). *)
Definition insert_player_team_by_season (player_item : item) : M unit :=
  try_except
    (let player_id := adapter_get player_item "player_id" in
     let player_team_id := adapter_get player_item "player_team_id" in
     let season := adapter_get player_item "season" in
     let player_number := adapter_get player_item "player_number" in
     if negb (all [player_id; player_team_id; season]) then
       logger_warning "insert_player_team_by_season" ;; ret tt
     else
       cur_execute
         (sql_insert_player_team_by_season pg player_id player_team_id season player_number))
    is_psycopg2_Error
    (fun e =>
       conn_rollback ;;
       logger_error "insert_player_team_by_season" e ;;
       raise e).

(** [insert_game] (source lines 238-287). *)
Definition insert_game (game_item : item) : M unit :=
  try_except
    (let game_id := adapter_get game_item "game_id" in
     if negb (truthy game_id) then
       logger_warning "insert_game" ;; ret tt
     else
       cur_execute
         (sql_insert_game pg
            game_id
            (adapter_get game_item "game_date")
            (adapter_get game_item "game_time")
            (adapter_get game_item "home_team_id")
            (adapter_get game_item "away_team_id")
            (adapter_get game_item "home_team_score")
            (adapter_get game_item "away_team_score")
            (adapter_get game_item "round")
            (adapter_get game_item "stage")
            (adapter_get game_item "season")
            (adapter_get game_item "arena")
            (adapter_get game_item "link")))
    is_psycopg2_Error
    (fun e =>
       conn_rollback ;;
       logger_error "insert_game" e ;;
       raise e).

(** [insert_shot] (source lines 290-335); its handler is [except Exception]. *)
Definition insert_shot (shot_item : item) : M unit :=
  try_except
    (let player_id := adapter_get shot_item "player_id" in
     let game_id := adapter_get shot_item "game_id" in
     let team_id := adapter_get shot_item "team_id" in
     let shot_quarter := adapter_get shot_item "shot_quarter" in
     let shot_time := adapter_get shot_item "shot_time" in
     let shot_type := adapter_get shot_item "shot_type" in
     let shot_x_location := adapter_get shot_item "shot_x_location" in
     let shot_y_location := adapter_get shot_item "shot_y_location" in
     if negb (all [player_id; game_id; team_id]) then
       logger_warning "insert_shot" ;; ret tt
     else
       cur_execute
         (sql_insert_shot pg
            player_id game_id team_id
            shot_quarter shot_time shot_type
            shot_x_location shot_y_location))
    is_Exception
    (fun e =>
       conn_rollback ;;
       logger_error "insert_shot" e ;;
       raise e).

(** *** The writers as a family *)

Inductive writer :=
  | TeamWriter
  | PlayerWriter
  | RosterWriter
  | GameWriter
  | ShotWriter.

Definition run_writer (w : writer) : item -> M unit :=
  match w with
  | TeamWriter => insert_team
  | PlayerWriter => insert_player
  | RosterWriter => insert_player_team_by_season
  | GameWriter => insert_game
  | ShotWriter => insert_shot
  end.

(** The item fields each writer requires before it writes. *)
Definition required_fields (w : writer) : list string :=
  match w with
  | TeamWriter => ["id"]
  | PlayerWriter => ["player_id"]
  | RosterWriter => ["player_id"; "player_team_id"; "season"]
  | GameWriter => ["game_id"]
  | ShotWriter => ["player_id"; "game_id"; "team_id"]
  end.

Definition writer_site (w : writer) : string :=
  match w with
  | TeamWriter => "insert_team"
  | PlayerWriter => "insert_player"
  | RosterWriter => "insert_player_team_by_season"
  | GameWriter => "insert_game"
  | ShotWriter => "insert_shot"
  end.

(** The statement a writer sends for an item that passes its check. *)
Definition writer_stmt (w : writer) (it : item) : sql_stmt unit :=
  match w with
  | TeamWriter =>
    sql_insert_team pg (adapter_get it "id") (adapter_get it "name") (adapter_get it "logo")
  | PlayerWriter =>
    sql_insert_player pg (adapter_get it "player_id") (adapter_get it "player_name")
      (adapter_get it "player_icon_url")
  | RosterWriter =>
    sql_insert_player_team_by_season pg (adapter_get it "player_id")
      (adapter_get it "player_team_id") (adapter_get it "season")
      (adapter_get it "player_number")
  | GameWriter =>
    sql_insert_game pg (adapter_get it "game_id") (adapter_get it "game_date")
      (adapter_get it "game_time") (adapter_get it "home_team_id")
      (adapter_get it "away_team_id") (adapter_get it "home_team_score")
      (adapter_get it "away_team_score") (adapter_get it "round")
      (adapter_get it "stage") (adapter_get it "season") (adapter_get it "arena")
      (adapter_get it "link")
  | ShotWriter =>
    sql_insert_shot pg (adapter_get it "player_id") (adapter_get it "game_id")
      (adapter_get it "team_id") (adapter_get it "shot_quarter")
      (adapter_get it "shot_time") (adapter_get it "shot_type")
      (adapter_get it "shot_x_location") (adapter_get it "shot_y_location")
  end.




Definition game_row_of (it : item) : exn + game_row :=
  game_values pg (adapter_get it "game_id") (adapter_get it "game_date")
    (adapter_get it "game_time") (adapter_get it "home_team_id")
    (adapter_get it "away_team_id") (adapter_get it "home_team_score")
    (adapter_get it "away_team_score") (adapter_get it "round")
    (adapter_get it "stage") (adapter_get it "season") (adapter_get it "arena")
    (adapter_get it "link").







(** The exception classes a writer's [except] clause names. *)
Definition writer_catches (w : writer) : exn -> bool :=
  match w with
  | ShotWriter => is_Exception
  | _ => is_psycopg2_Error
  end.

(** The common shape of the five writers. *)
Definition guarded_write (w : writer) (it : item) : M unit :=
  try_except
    (if negb (all (adapter_get it <$> required_fields w)) then
       logger_warning (writer_site w) ;; ret tt
     else cur_execute (writer_stmt w it))
    (writer_catches w)
    (fun e =>
       conn_rollback ;;
       logger_error (writer_site w) e ;;
       raise e).

(** *** Units of work built from the manager's methods *)

Inductive call :=
  | CreateTables
  | GetIdGamesBySeason (season : pyval)
  | Insert (w : writer) (it : item)
  | RaiseInBody (e : exn).

Definition run_call (c : call) : M unit :=
  match c with
  | CreateTables => create_tables
  | GetIdGamesBySeason season => get_id_games_by_season season ;; ret tt
  | Insert w it => run_writer w it
  | RaiseInBody e => raise e
  end.

(** The calls of a body in sequence; the first exception ends the body. *)
Fixpoint run_calls (cs : list call) : M unit :=
  match cs with
  | [] => ret tt
  | c :: cs' => run_call c ;; run_calls cs'
  end.


End Methods.

End DatabaseManager.

Import DatabaseManager.

(** ** Sample data *)

Module Samples.

(** A conversion table for worked examples: it accepts the values whose
    Python type is the column's own (an [int] within the 32-bit range for
    INTEGER, a [str] that fits for VARCHAR(n), a [float] for FLOAT) and
    rejects the rest. *)
Definition plain_casts : server_casts :=
  {| to_integer := fun v =>
       match v with
       | PyInt z => if (- 2 ^ 31 <=? z) && (z <? 2 ^ 31) then Some z else None
       | _ => None
       end;
     to_varchar := fun n v =>
       match v with
       | PyStr s => if bool_decide (String.length s <= n)%nat then Some s else None
       | _ => None
       end;
     to_text := fun v => match v with PyStr s => Some s | _ => None end;
     to_date := fun _ => None;
     to_time := fun _ => None;
     to_float := fun v => match v with PyFloat bits => Some bits | _ => None end;
     to_operand := fun v => match v with PyStr s => Some s | _ => None end |}.

(** The state around a manager just built by [DatabaseManager(DB_CONFIG)]
    over a database [d]: no connection, no cursor. *)
Definition initial_state (d : db) : state :=
  {| committed := d; working := d; tx_aborted := false; shots_seq := 0;
     cur_open := false; pool_used := 0; self_conn := false; self_cur := false;
     faults := no_faults; log := [] |}.

(** The database once [create_tables] has run on an empty one. *)
Definition empty_schema : db :=
  {| teams_table := Some []; players_table := Some [];
     player_teams_by_season_table := Some []; games_table := Some [];
     shots_table := Some [] |}.

(** A state inside a scope: connection and cursor held, transaction open on
    [d]. *)
Definition in_scope (d : db) : state :=
  {| committed := d; working := d; tx_aborted := false; shots_seq := 0;
     cur_open := true; pool_used := 1; self_conn := true; self_cur := true;
     faults := no_faults; log := [] |}.

(** A driver whose [rollback] raises, as on a connection the server dropped. *)
Definition rollback_raises : driver_faults :=
  {| getconn_fault := None; close_fault := None; commit_fault := None;
     rollback_fault := Some OperationalError; putconn_fault := None |}.

(** A driver whose [commit] raises. *)
Definition commit_raises : driver_faults :=
  {| getconn_fault := None; close_fault := None;
     commit_fault := Some OperationalError;
     rollback_fault := None; putconn_fault := None |}.


Definition lakers_row : team_row :=
  {| team_id := "LAL"; team_name := Some "Lakers"; team_logo := Some "http://x" |}.




Definition lakers : item :=
  <["id" := PyStr "LAL"]> (<["name" := PyStr "Lakers"]> (<["logo" := PyStr "http://x"]> ∅)).

Definition lakers_renamed : item :=
  <["id" := PyStr "LAL"]> (<["name" := PyStr "Los Angeles"]> ∅).

Definition player_7 : item :=
  <["player_id" := PyInt 7]> (<["player_name" := PyStr "Ana"]> ∅).


Definition roster_7 : item :=
  <["player_id" := PyInt 7]> (<["player_team_id" := PyStr "LAL"]>
    (<["season" := PyStr "2023"]> (<["player_number" := PyStr "10"]> ∅))).


Definition game (id : Z) (season : string) (home_score : Z) : item :=
  <["game_id" := PyInt id]> (<["season" := PyStr season]>
    (<["home_team_score" := PyInt home_score]> ∅)).

(** A team item without its [id] field. *)
Definition team_without_id : item :=
  <["name" := PyStr "Lakers"]> (<["logo" := PyStr "http://x"]> ∅).

(** Items whose key field is present and falsy. *)
Definition player_zero : item :=
  <["player_id" := PyInt 0]> (<["player_name" := PyStr "Ana"]> ∅).

Definition team_empty_id : item :=
  <["id" := PyStr ""]> (<["name" := PyStr "Lakers"]> ∅).

(** The one warning a writer logs when it skips a write. *)
Definition skip_warning (w : writer) : log_record :=
  {| log_level_of := WARNING; log_site := writer_site w; log_exn := None |}.

Definition boston : team_row :=
  {| team_id := "BOS"; team_name := Some "Celtics"; team_logo := None |}.

(** The state of a scope in which three games were written: 10 and 11 for
    season 2023, 12 for season 2024. *)
Definition three_games : state :=
  snd (run_calls plain_casts
         [Insert GameWriter (game 10 "2023" 80);
          Insert GameWriter (game 11 "2023" 70);
          Insert GameWriter (game 12 "2024" 60)]
         (in_scope empty_schema)).

Definition shot_7 : item :=
  <["player_id" := PyInt 7]> (<["game_id" := PyInt 1]> (<["team_id" := PyStr "LAL"]>
    (<["shot_type" := PyStr "3PT"]> ∅))).

End Samples.

(** ** Module level, construction and [close] *)

Module ModuleLevel.

(** The process environment, [os.environ]. *)
Abbreviation environ := (gmap string string).

Record db_config := {
  cfg_host : string;
  cfg_database : string;
  cfg_user : string;
  cfg_password : string;
  cfg_port : string }.

(** The outcome of the configuration block: the settings, or [SystemExit]
    raised for the variable whose lookup raised [KeyError]. *)
Inductive config_outcome :=
  | Configured (c : db_config)
  | SystemExit (missing : string).

(** [DB_CONFIG] (source lines 21-31): the dictionary display evaluates its
    entries in order, so the first absent variable among DB_HOST, DB_NAME,
    DB_USER and DB_PASS ends the import; DB_PORT has a default. *)
Definition DB_CONFIG (env : environ) : config_outcome :=
  match env !! "DB_HOST" with
  | None => SystemExit "DB_HOST"
  | Some host =>
    match env !! "DB_NAME" with
    | None => SystemExit "DB_NAME"
    | Some database =>
      match env !! "DB_USER" with
      | None => SystemExit "DB_USER"
      | Some user =>
        match env !! "DB_PASS" with
        | None => SystemExit "DB_PASS"
        | Some password =>
          Configured
            {| cfg_host := host; cfg_database := database; cfg_user := user;
               cfg_password := password;
               cfg_port := default "5432" (env !! "DB_PORT") |}
        end
      end
    end
  end.

(** The variables the import cannot do without, in lookup order. *)
Definition required_variables : list string :=
  ["DB_HOST"; "DB_NAME"; "DB_USER"; "DB_PASS"].

(** [DatabaseManager.__init__] (source lines 50-53): no connection, no
    cursor. *)
Definition __init__ : M unit :=
  fun s => (Return tt, set_self_cur (set_self_conn s false) false).

(** [self.conn.close()]: the server drops the open transaction, and from
    here on the connection refuses [commit] and [rollback] with
    [InterfaceError]. *)
Definition conn_close : M unit :=
  fun s =>
  if negb (self_conn s) then (Raise AttributeError, s)
  else
    (Return tt,
     set_faults (set_tx s (committed s) (committed s) false)
       {| getconn_fault := getconn_fault (faults s);
          close_fault := close_fault (faults s);
          commit_fault := Some InterfaceError;
          rollback_fault := Some InterfaceError;
          putconn_fault := putconn_fault (faults s) |}).

(** [close] (source lines 338-340). On [self.cur = None] the attribute
    lookup raises. *)
Definition close : M unit :=
  cur <- read self_cur ;;
  (if cur then cur_close else raise AttributeError) ;;
  conn_close.

End ModuleLevel.

(** ** Integrity of the stored data *)

Module Integrity.

(** The primary keys: no two rows of a relation share their key. *)
Definition pk_unique (d : db) : Prop :=
  NoDup (team_ids d) /\ NoDup (player_ids d) /\ NoDup (roster_keys d) /\
  NoDup (game_ids d) /\ NoDup (shot_ids d).

(** The foreign keys: every reference that is not NULL names a stored row. *)
Definition fk_closed (d : db) : Prop :=
  (forall r, r ∈ rows_of (player_teams_by_season_table d) ->
     roster_player_id r ∈ player_ids d /\ roster_team_id r ∈ team_ids d) /\
  (forall r, r ∈ rows_of (games_table d) ->
     fk_ok (home_team_id r) (team_ids d) = true /\
     fk_ok (away_team_id r) (team_ids d) = true) /\
  (forall r, r ∈ rows_of (shots_table d) ->
     fk_ok (shot_player_id r) (player_ids d) = true /\
     fk_ok (shot_game_id r) (game_ids d) = true /\
     fk_ok (shot_team_id r) (team_ids d) = true).

(** The shot sequence has passed every stored shot id, in the transaction's
    view and in the committed database, and a committed [shots_table] is in
    the transaction's view as well. *)
Definition seq_ahead (s : state) : Prop :=
  (forall id, id ∈ shot_ids (working s) -> id <= shots_seq s) /\
  (forall id, id ∈ shot_ids (committed s) -> id <= shots_seq s) /\
  (is_Some (shots_table (committed s)) -> is_Some (shots_table (working s))).

(** The relation each writer writes to. *)
Definition writer_table (w : writer) : table_name :=
  match w with
  | TeamWriter => teams
  | PlayerWriter => players
  | RosterWriter => player_teams_by_season
  | GameWriter => games
  | ShotWriter => shots
  end.

(** A database with one relation left out of the comparison. *)
Definition without_table (t : table_name) (d : db) : db :=
  match t with
  | teams =>
    {| teams_table := None; players_table := players_table d;
       player_teams_by_season_table := player_teams_by_season_table d;
       games_table := games_table d; shots_table := shots_table d |}
  | players =>
    {| teams_table := teams_table d; players_table := None;
       player_teams_by_season_table := player_teams_by_season_table d;
       games_table := games_table d; shots_table := shots_table d |}
  | player_teams_by_season =>
    {| teams_table := teams_table d; players_table := players_table d;
       player_teams_by_season_table := None;
       games_table := games_table d; shots_table := shots_table d |}
  | games =>
    {| teams_table := teams_table d; players_table := players_table d;
       player_teams_by_season_table := player_teams_by_season_table d;
       games_table := None; shots_table := shots_table d |}
  | shots =>
    {| teams_table := teams_table d; players_table := players_table d;
       player_teams_by_season_table := player_teams_by_season_table d;
       games_table := games_table d; shots_table := None |}
  end.

(** The ways a call can change the transaction's view and the sequence:
    not at all or by a rollback (the sequence may have advanced), by the
    schema script, or by the successful statement of a writer. *)
Definition call_effect (pg : server_casts) (c : call) (s s' : state) : Prop :=
  ((working s' = working s \/ working s' = committed s) /\
   shots_seq s <= shots_seq s') \/
  (working s' = create_missing (working s) /\
   shots_seq s' = (if bool_decide (is_Some (shots_table (working s)))
                   then shots_seq s else 0)) \/
  (exists w it, c = Insert w it /\
     writer_stmt pg w it (working s) (shots_seq s)
     = StmtOk (working s') (shots_seq s') tt).

End Integrity.

Import ModuleLevel Integrity.
Import Samples.

(** ** Python-level facts *)

Lemma constraint_violation_is_psycopg2 e :
  is_constraint_violation e = true -> is_psycopg2_Error e = true.
Proof. by destruct e. Qed.

Lemma psycopg2_Error_is_Exception e :
  is_psycopg2_Error e = true -> is_Exception e = true.
Proof. by destruct e. Qed.

Lemma adapter_get_absent (it : item) field :
  it !! field = None -> adapter_get it field = PyNone.
Proof. unfold adapter_get. by intros ->. Qed.

Lemma all_false_of_falsy (vs : list pyval) v :
  v ∈ vs -> truthy v = false -> all vs = false.
Proof.
  intros Hin Hv. unfold all. apply not_true_is_false. intros Hall.
  rewrite forallb_forall in Hall. apply list_elem_of_In in Hin.
  specialize (Hall _ Hin). congruence.
Qed.

(** ** What the manager's methods leave alone *)

(** The part of the state no method other than [__enter__] and [__exit__]
    touches: the committed database, the handles, the pool and the faults. *)
Definition same_scope (s s' : state) : Prop :=
  committed s' = committed s /\ faults s' = faults s /\
  self_conn s' = self_conn s /\ self_cur s' = self_cur s /\
  cur_open s' = cur_open s /\ pool_used s' = pool_used s.

Lemma same_scope_refl s : same_scope s s.
Proof. by repeat split. Qed.

Lemma same_scope_trans s1 s2 s3 :
  same_scope s1 s2 -> same_scope s2 s3 -> same_scope s1 s3.
Proof.
  unfold same_scope. intros (?&?&?&?&?&?) (?&?&?&?&?&?).
  repeat split; congruence.
Qed.

Ltac unfold_M :=
  repeat progress
    unfold bind, ret, raise, try_except, when, read, logger_info, logger_warning,
      logger_error, logger, conn_rollback, conn_commit, cur_close, conn_cursor,
      POOL_getconn, POOL_putconn, assign_conn, assign_cur, cur_execute in *.

Ltac crush_M :=
  unfold_M; simpl in *;
  repeat (first [progress simplify_eq | case_match]; unfold_M; simpl in *);
  try done.

Lemma cur_execute_same_scope {A} (stmt : sql_stmt A) s r s' :
  cur_execute stmt s = (r, s') -> same_scope s s'.
Proof. intros H. crush_M; by repeat split. Qed.

Lemma conn_rollback_same_scope s r s' :
  conn_rollback s = (r, s') -> same_scope s s'.
Proof. intros H. crush_M; by repeat split. Qed.

Lemma logger_same_scope lvl site e s r s' :
  logger lvl site e s = (r, s') -> same_scope s s'.
Proof. intros H. crush_M; by repeat split. Qed.

Section WriterShape.

Context (pg : server_casts).

(** Each writer is an instance of the common shape. *)
Lemma run_writer_guarded w it s :
  run_writer pg w it s = guarded_write pg w it s.
Proof.
  destruct w; unfold run_writer, guarded_write, insert_team, insert_player,
    insert_player_team_by_season, insert_game, insert_shot, all; simpl;
    rewrite ?andb_true_r; reflexivity.
Qed.

(** A writer whose check fails logs one warning and does nothing else. *)
Lemma guarded_write_skip w it s :
  all (adapter_get it <$> required_fields w) = false ->
  guarded_write pg w it s =
  (Return tt,
   add_log s {| log_level_of := WARNING; log_site := writer_site w; log_exn := None |}).
Proof. intros H. unfold guarded_write, try_except. rewrite H. reflexivity. Qed.

(** A writer whose check passes sends its statement. *)
Lemma guarded_write_send w it s :
  all (adapter_get it <$> required_fields w) = true ->
  guarded_write pg w it s =
  try_except (cur_execute (writer_stmt pg w it)) (writer_catches w)
    (fun e => conn_rollback ;; logger_error (writer_site w) e ;; raise e) s.
Proof. intros H. unfold guarded_write, try_except. rewrite H. reflexivity. Qed.

Lemma guarded_write_same_scope w it s r s' :
  guarded_write pg w it s = (r, s') -> same_scope s s'.
Proof.
  intros H. unfold guarded_write in H.
  destruct (all (adapter_get it <$> required_fields w)); simpl in H.
  - unfold try_except in H.
    destruct (cur_execute (writer_stmt pg w it) s) as [[a|e] s1] eqn:E;
      apply cur_execute_same_scope in E.
    + by simplify_eq.
    + destruct (writer_catches w e); [|by simplify_eq].
      eapply same_scope_trans; [exact E|].
      clear E. crush_M; by repeat split.
  - crush_M; by repeat split.
Qed.

Lemma run_writer_same_scope w it s r s' :
  run_writer pg w it s = (r, s') -> same_scope s s'.
Proof. rewrite run_writer_guarded. apply guarded_write_same_scope. Qed.

Lemma create_tables_same_scope s r s' :
  create_tables s = (r, s') -> same_scope s s'.
Proof.
  unfold create_tables. intros H. unfold try_except, bind at 1 in H.
  destruct (cur_execute (sql_script schema_ddl) s) as [[a|e] s1] eqn:E;
    apply cur_execute_same_scope in E.
  - eapply same_scope_trans; [exact E|]. clear E. crush_M; by repeat split.
  - destruct (is_Exception e); [|by simplify_eq].
    eapply same_scope_trans; [exact E|]. clear E. crush_M; by repeat split.
Qed.

Lemma get_id_games_by_season_same_scope season s r s' :
  get_id_games_by_season pg season s = (r, s') -> same_scope s s'.
Proof.
  unfold get_id_games_by_season. intros H. unfold try_except, bind at 1 in H.
  destruct (cur_execute (sql_select_game_ids pg season) s) as [[a|e] s1] eqn:E;
    apply cur_execute_same_scope in E.
  - crush_M.
  - destruct (is_Exception e); [|by simplify_eq].
    eapply same_scope_trans; [exact E|]. clear E. crush_M; by repeat split.
Qed.

Lemma run_call_same_scope c s r s' :
  run_call pg c s = (r, s') -> same_scope s s'.
Proof.
  destruct c; simpl.
  - apply create_tables_same_scope.
  - unfold bind. destruct (get_id_games_by_season pg season s) as [[a|e] s1] eqn:E;
      apply get_id_games_by_season_same_scope in E; unfold ret; intros; by simplify_eq.
  - apply run_writer_same_scope.
  - unfold raise. intros. simplify_eq. apply same_scope_refl.
Qed.

Lemma run_calls_same_scope cs s r s' :
  run_calls pg cs s = (r, s') -> same_scope s s'.
Proof.
  revert s. induction cs as [|c cs IH]; intros s; simpl.
  - unfold ret. intros. simplify_eq. apply same_scope_refl.
  - unfold bind. destruct (run_call pg c s) as [[a|e] s1] eqn:E;
      apply run_call_same_scope in E.
    + intros H. apply IH in H. by eapply same_scope_trans.
    + intros. by simplify_eq.
Qed.

Lemma run_calls_app cs1 cs2 s :
  run_calls pg (cs1 ++ cs2) s = (run_calls pg cs1 ;; run_calls pg cs2) s.
Proof.
  revert s. induction cs1 as [|c cs IH]; intros s; simpl.
  - reflexivity.
  - unfold bind in *. destruct (run_call pg c s) as [[a|e] s1]; [|done].
    rewrite IH. reflexivity.
Qed.

End WriterShape.

(** ** Entering and leaving a scope *)

Section Scope.

Context (pg : server_casts).

(** What a successful [__enter__] establishes. *)
Lemma enter_Return s0 s1 :
  __enter__ s0 = (Return tt, s1) ->
  self_conn s1 = true /\ self_cur s1 = true /\ cur_open s1 = true /\
  tx_aborted s1 = false /\ committed s1 = committed s0 /\
  working s1 = committed s0 /\ faults s1 = faults s0 /\
  pool_used s1 = S (pool_used s0) /\ log s1 = log s0 /\
  shots_seq s1 = shots_seq s0.
Proof. unfold __enter__. intros H. crush_M; by repeat split. Qed.

(** [__enter__] succeeds when the pool has a connection to give. *)
Lemma enter_succeeds s0 :
  getconn_fault (faults s0) = None -> (pool_used s0 < maxconn)%nat ->
  exists s1, __enter__ s0 = (Return tt, s1).
Proof.
  intros Hf Hp. unfold __enter__. unfold_M. simpl. rewrite Hf.
  rewrite bool_decide_eq_false_2 by lia. eauto.
Qed.

(** [__exit__] on the normal path, with handles held and a driver that
    answers. *)
Lemma exit_normal s :
  self_conn s = true -> self_cur s = true ->
  close_fault (faults s) = None -> commit_fault (faults s) = None ->
  putconn_fault (faults s) = None ->
  exists s', __exit__ None s = (Return tt, s') /\
    cur_open s' = false /\ pool_used s' = Nat.pred (pool_used s) /\
    committed s' = (if tx_aborted s then committed s else working s) /\
    working s' = committed s' /\ tx_aborted s' = false /\ log s' = log s /\
    shots_seq s' = shots_seq s /\ faults s' = faults s.
Proof.
  intros Hc Hu Hf1 Hf2 Hf3. unfold __exit__. unfold_M. simpl.
  rewrite Hu, Hf1. simpl. rewrite Hc. simpl. rewrite Hc, Hf2. simpl.
  destruct (tx_aborted s); simpl; rewrite Hf3; eexists; split; try reflexivity;
    simpl; by repeat split.
Qed.

(** [__exit__] on the failure path, when the rollback succeeds. *)
Lemma exit_failure e s :
  self_conn s = true -> self_cur s = true ->
  close_fault (faults s) = None -> rollback_fault (faults s) = None ->
  putconn_fault (faults s) = None ->
  exists s', __exit__ (Some e) s = (Return tt, s') /\
    cur_open s' = false /\ pool_used s' = Nat.pred (pool_used s) /\
    committed s' = committed s /\ working s' = committed s /\
    tx_aborted s' = false /\
    log s' = log s ++ [{| log_level_of := ERROR; log_site := "__exit__";
                          log_exn := Some e |}] /\
    shots_seq s' = shots_seq s /\ faults s' = faults s.
Proof.
  intros Hc Hu Hf1 Hf2 Hf3. unfold __exit__. unfold_M. simpl.
  rewrite Hu, Hf1. simpl. rewrite Hc. simpl. rewrite Hc, Hf2. simpl.
  rewrite Hf3. eexists; split; try reflexivity; simpl; by repeat split.
Qed.


(** Nothing is committed by [__exit__] on the failure path, whatever the
    driver does. *)
Lemma exit_failure_commits_nothing e s r s' :
  __exit__ (Some e) s = (r, s') -> committed s' = committed s.
Proof. unfold __exit__. intros H. crush_M. Qed.

(** The [with] statement once [__enter__] and the body have run. *)
Lemma with_unfold {A} (body : M A) s0 s1 r s2 :
  __enter__ s0 = (Return tt, s1) -> body s1 = (r, s2) ->
  with_DatabaseManager body s0 =
  match r with
  | Return a =>
    match __exit__ None s2 with
    | (Return _, s3) => (Return a, s3)
    | (Raise e', s3) => (Raise e', s3)
    end
  | Raise e =>
    match __exit__ (Some e) s2 with
    | (Return _, s3) => (Raise e, s3)
    | (Raise e', s3) => (Raise e', s3)
    end
  end.
Proof.
  intros He Hb. unfold with_DatabaseManager. rewrite He, Hb. by destruct r.
Qed.

End Scope.

(** ** The transaction scope *)

(** C1, as the code has it. A unit of work run inside
    [with DatabaseManager(...)], with the manager's handles in place when
    the body ends. As long as the calls that [__exit__] makes on the driver
    return: when the body returns, the cursor is closed, the transaction is
    committed (the committed database becomes the body's view; for a
    transaction the server has marked failed the commit is a rollback) and
    the connection goes back to the pool; when the body raises, the cursor
    is closed, the transaction is rolled back, the connection goes back to
    the pool and the [with] statement raises the body's own exception.
    [__exit__] has no [finally]: when closing the cursor raises, or the
    commit or the rollback does, that exception leaves the [with] statement
    and [__exit__] stops there, before [POOL.putconn]. *)
Theorem scope_commit_or_rollback_then_release {A} (body : M A) s0 s1 r s2 :
  __enter__ s0 = (Return tt, s1) ->
  body s1 = (r, s2) ->
  self_conn s2 = true -> self_cur s2 = true ->
  (close_fault (faults s2) = None -> putconn_fault (faults s2) = None ->
   match r with
   | Return a =>
     commit_fault (faults s2) = None ->
     exists s3,
       with_DatabaseManager body s0 = (Return a, s3) /\
       cur_open s3 = false /\ pool_used s3 = Nat.pred (pool_used s2) /\
       committed s3 = (if tx_aborted s2 then committed s2 else working s2)
   | Raise e =>
     rollback_fault (faults s2) = None ->
     exists s3,
       with_DatabaseManager body s0 = (Raise e, s3) /\
       cur_open s3 = false /\ pool_used s3 = Nat.pred (pool_used s2) /\
       committed s3 = committed s2 /\ working s3 = committed s2
   end) /\
  (forall e', close_fault (faults s2) = Some e' ->
     with_DatabaseManager body s0 = (Raise e', s2)) /\
  (forall e', close_fault (faults s2) = None ->
     match r with
     | Return _ => commit_fault (faults s2) = Some e'
     | Raise _ => rollback_fault (faults s2) = Some e'
     end ->
     with_DatabaseManager body s0 = (Raise e', set_cur_open s2 false)).
Proof.
  intros He Hb Hc Hu.
  rewrite (with_unfold body s0 s1 r s2 He Hb).
  split; [|split].
  - intros Hcl Hpc. destruct r as [a|e].
    + intros Hcm.
      destruct (exit_normal s2) as (s3&->&Ho&Hp3&Hcm3&_); try done.
      by exists s3.
    + intros Hrb.
      destruct (exit_failure e s2) as (s3&->&Ho&Hp3&Hcm3&Hw3&_); try done.
      by exists s3.
  - intros e' Hcl. unfold __exit__. unfold_M. simpl. rewrite Hu, Hcl.
    by destruct r.
  - intros e' Hcl Hfault. unfold __exit__. unfold_M. simpl. rewrite Hu, Hcl. simpl.
    rewrite Hc. simpl. rewrite Hc. destruct r; rewrite Hfault; reflexivity.
Qed.

Lemma scope_commit_or_rollback_then_release_witness :
  (exists s3,
     with_DatabaseManager (run_calls plain_casts [Insert TeamWriter lakers])
       (initial_state empty_schema) = (Return tt, s3) /\
     cur_open s3 = false /\ pool_used s3 = 0%nat /\
     teams_table (committed s3) = Some [lakers_row]) /\
  (exists s3,
     with_DatabaseManager
       (run_calls plain_casts
          [Insert TeamWriter lakers; RaiseInBody (OtherError "ValueError")])
       (initial_state empty_schema) = (Raise (OtherError "ValueError"), s3) /\
     cur_open s3 = false /\ pool_used s3 = 0%nat /\
     committed s3 = empty_schema /\ working s3 = empty_schema).
Proof.
  split.
  - edestruct (scope_commit_or_rollback_then_release
                 (run_calls plain_casts [Insert TeamWriter lakers])
                 (initial_state empty_schema)
                 (snd (__enter__ (initial_state empty_schema)))
                 (Return tt)
                 (snd (run_calls plain_casts [Insert TeamWriter lakers]
                         (snd (__enter__ (initial_state empty_schema))))))
      as [Hret _]; try (vm_compute; reflexivity).
    destruct Hret as (s3 & Hrun & Hcur & Hpool & Hdb);
      try (vm_compute; reflexivity).
    exists s3. split; [exact Hrun|]. split; [exact Hcur|].
    split; [exact Hpool|]. rewrite Hdb. vm_compute. reflexivity.
  - edestruct (scope_commit_or_rollback_then_release
                 (run_calls plain_casts
                    [Insert TeamWriter lakers; RaiseInBody (OtherError "ValueError")])
                 (initial_state empty_schema)
                 (snd (__enter__ (initial_state empty_schema)))
                 (Raise (OtherError "ValueError"))
                 (snd (run_calls plain_casts
                         [Insert TeamWriter lakers;
                          RaiseInBody (OtherError "ValueError")]
                         (snd (__enter__ (initial_state empty_schema))))))
      as [Hret _]; try (vm_compute; reflexivity).
    destruct Hret as (s3 & Hrun & Hcur & Hpool & Hdb & Hw);
      try (vm_compute; reflexivity).
    exists s3. split; [exact Hrun|]. split; [exact Hcur|].
    split; [exact Hpool|]. rewrite Hdb, Hw. split; vm_compute; reflexivity.
Defined.

(** C1 as the specification words it fails. With a [commit] that raises
    [OperationalError], a body that returned makes the [with] statement
    raise, and the connection stays checked out of the pool: the exit path
    through a failing commit does not release. And a body that returns
    after swallowing the error of a statement of its own leaves the
    transaction failed: the scope ends normally, the connection is
    released, yet the commit stores nothing of what the body wrote. *)
Lemma release_skipped_when_commit_raises :
  (fst (with_DatabaseManager (insert_team plain_casts lakers)
          (set_faults (initial_state empty_schema) commit_raises))
   = Raise OperationalError /\
   pool_used (snd (with_DatabaseManager (insert_team plain_casts lakers)
                     (set_faults (initial_state empty_schema) commit_raises)))
   = 1%nat /\
   teams_table (committed (snd (with_DatabaseManager (insert_team plain_casts lakers)
                                  (set_faults (initial_state empty_schema)
                                     commit_raises))))
   = Some []) /\
  (fst (with_DatabaseManager
          (insert_team plain_casts lakers ;;
           try_except
             (cur_execute (sql_insert_player plain_casts (PyStr "x") PyNone PyNone))
             is_Exception (fun _ => ret tt))
          (initial_state empty_schema))
   = Return tt /\
   teams_table (committed (snd (with_DatabaseManager
          (insert_team plain_casts lakers ;;
           try_except
             (cur_execute (sql_insert_player plain_casts (PyStr "x") PyNone PyNone))
             is_Exception (fun _ => ret tt))
          (initial_state empty_schema))))
   = Some []).
Proof. repeat split; vm_compute; reflexivity. Qed.




(** ** The errors of the statements *)

Ltac sum_cases H :=
  repeat match type of H with
  | context [sum_bind ?m _] =>
    let E := fresh "E" in destruct m eqn:E; unfold sum_bind at 1 in H
  end.

Lemma rejection_class k v :
  rejection k v = DataError \/ rejection k v = ProgrammingError.
Proof. destruct k, v; simpl; auto. Qed.

Lemma col_error {A} k (cast : pyval -> option A) v e :
  col k cast v = inl e -> e = DataError \/ e = ProgrammingError.
Proof.
  unfold col. case_match; [done|]. intros [= <-]. apply rejection_class.
Qed.

Lemma not_null_error {A} (x : option A) e :
  not_null x = inl e -> e = NotNullViolation.
Proof. destruct x; simpl; congruence. Qed.

Lemma check_error b e e' : check b e = inl e' -> e' = e /\ b = false.
Proof. destruct b; simpl; intros; by simplify_eq. Qed.

Lemma check_ok b e u : check b e = inr u -> b = true.
Proof. destruct b; simpl; intros; by simplify_eq. Qed.

Ltac error_class :=
  repeat match goal with
  | H : col _ _ _ = inl _ |- _ => apply col_error in H as [-> | ->]
  | H : not_null _ = inl _ |- _ => apply not_null_error in H; subst
  | H : check _ _ = inl _ |- _ => apply check_error in H as [-> _]
  | H : inl _ = inl _ |- _ => injection H as <-
  end; try reflexivity; try discriminate.

Section StatementErrors.

Context (pg : server_casts).

Lemma team_values_error a b c e :
  team_values pg a b c = inl e -> is_psycopg2_Error e = true.
Proof. unfold team_values. intros H. sum_cases H; error_class. Qed.

Lemma player_values_error a b c e :
  player_values pg a b c = inl e -> is_psycopg2_Error e = true.
Proof. unfold player_values. intros H. sum_cases H; error_class. Qed.

Lemma roster_values_error a b c d e :
  roster_values pg a b c d = inl e -> is_psycopg2_Error e = true.
Proof. unfold roster_values. intros H. sum_cases H; error_class. Qed.

Lemma roster_fks_error row d e :
  roster_fks row d = inl e -> e = ForeignKeyViolation.
Proof. unfold roster_fks. intros H. sum_cases H; error_class. Qed.

Lemma game_values_error v1 v2 v3 v4 v5 v6 v7 v8 v9 v10 v11 v12 e :
  game_values pg v1 v2 v3 v4 v5 v6 v7 v8 v9 v10 v11 v12 = inl e ->
  is_psycopg2_Error e = true.
Proof. unfold game_values. intros H. sum_cases H; error_class. Qed.

Lemma game_fks_error row d e :
  game_fks row d = inl e -> e = ForeignKeyViolation.
Proof. unfold game_fks. intros H. sum_cases H; error_class. Qed.

Lemma shot_values_error v1 v2 v3 v4 v5 v6 v7 v8 id e :
  shot_values pg v1 v2 v3 v4 v5 v6 v7 v8 id = inl e ->
  e = DataError \/ e = ProgrammingError.
Proof. unfold shot_values. intros H. sum_cases H; error_class; auto. Qed.

Lemma shot_constraints_error row rows d e :
  shot_constraints row rows d = inl e -> is_constraint_violation e = true.
Proof. unfold shot_constraints. intros H. sum_cases H; error_class. Qed.

(** Every error of a writer's statement is a [psycopg2.Error]. *)
Lemma writer_stmt_error w it d seq e seq' :
  writer_stmt pg w it d seq = StmtErr e seq' -> is_psycopg2_Error e = true.
Proof.
  destruct w; simpl;
    unfold sql_insert_team, sql_insert_player, sql_insert_player_team_by_season,
      sql_insert_game, sql_insert_shot; intros H;
    repeat (case_match; simplify_eq); try reflexivity.
  all: match goal with
       | H : team_values _ _ _ _ = inl _ |- _ => by eapply team_values_error
       | H : player_values _ _ _ _ = inl _ |- _ => by eapply player_values_error
       | H : roster_values _ _ _ _ _ = inl _ |- _ => by eapply roster_values_error
       | H : roster_fks _ _ = inl _ |- _ =>
         apply roster_fks_error in H as ->; reflexivity
       | H : game_values _ _ _ _ _ _ _ _ _ _ _ _ _ = inl _ |- _ =>
         by eapply game_values_error
       | H : game_fks _ _ = inl _ |- _ =>
         apply game_fks_error in H as ->; reflexivity
       | H : shot_values _ _ _ _ _ _ _ _ _ _ = inl _ |- _ =>
         apply shot_values_error in H as [-> | ->]; reflexivity
       | H : shot_constraints _ _ _ = inl _ |- _ =>
         apply constraint_violation_is_psycopg2; by eapply shot_constraints_error
       end.
Qed.

Lemma writer_stmt_error_caught w it d seq e seq' :
  writer_stmt pg w it d seq = StmtErr e seq' -> writer_catches w e = true.
Proof.
  intros H. apply writer_stmt_error in H.
  destruct w; simpl; try done. by apply psycopg2_Error_is_Exception.
Qed.

End StatementErrors.

(** ** Outcomes of a writer *)

Section WriterOutcomes.

Context (pg : server_casts).

Lemma psycopg2_Error_caught w e :
  is_psycopg2_Error e = true -> writer_catches w e = true.
Proof. destruct w; simpl; try done; apply psycopg2_Error_is_Exception. Qed.

(** A writer that raises a [psycopg2.Error] has rolled the transaction back
    and logged the error before the exception leaves it. *)
Lemma guarded_write_raise w it s e s' :
  rollback_fault (faults s) = None ->
  is_psycopg2_Error e = true ->
  guarded_write pg w it s = (Raise e, s') ->
  working s' = committed s /\ committed s' = committed s /\
  tx_aborted s' = false /\
  log s' = log s ++ [{| log_level_of := ERROR; log_site := writer_site w;
                        log_exn := Some e |}].
Proof.
  intros Hf He H. unfold guarded_write in H.
  destruct (all (adapter_get it <$> required_fields w)); simpl in H;
    [|crush_M].
  unfold try_except in H.
  destruct (cur_execute (writer_stmt pg w it) s) as [[a|e0] s1] eqn:E;
    [by simplify_eq|].
  destruct (writer_catches w e0) eqn:Hc.
  - unfold cur_execute in E.
    repeat (case_match; simplify_eq); crush_M.
  - simplify_eq. rewrite psycopg2_Error_caught in Hc; done.
Qed.

(** A writer that returns after passing its check has run its statement. *)
Lemma guarded_write_Return w it s s' :
  all (adapter_get it <$> required_fields w) = true ->
  guarded_write pg w it s = (Return tt, s') ->
  exists d seq,
    writer_stmt pg w it (working s) (shots_seq s) = StmtOk d seq tt /\
    s' = set_shots_seq (set_tx s (committed s) d false) seq /\
    self_cur s = true /\ cur_open s = true /\ tx_aborted s = false.
Proof.
  intros Ha H. rewrite guarded_write_send in H by done.
  unfold try_except in H.
  destruct (cur_execute (writer_stmt pg w it) s) as [[a|e0] s1] eqn:E.
  - simplify_eq. unfold cur_execute in E.
    repeat (case_match; simplify_eq).
    eexists _, _. split; [done|]. repeat split; try done;
      by apply negb_false_iff.
  - destruct (writer_catches w e0); [|by simplify_eq]. crush_M.
Qed.


(** A writer whose statement fails rolls back, logs and raises the
    statement's error. *)
Lemma guarded_write_fails w it s e seq :
  all (adapter_get it <$> required_fields w) = true ->
  self_cur s = true -> self_conn s = true -> cur_open s = true ->
  tx_aborted s = false -> rollback_fault (faults s) = None ->
  writer_stmt pg w it (working s) (shots_seq s) = StmtErr e seq ->
  guarded_write pg w it s =
  (Raise e,
   add_log (set_shots_seq (set_tx s (committed s) (committed s) false) seq)
     {| log_level_of := ERROR; log_site := writer_site w; log_exn := Some e |}).
Proof.
  intros Ha Hu Hc Ho Hab Hf Hs. rewrite guarded_write_send by done.
  unfold try_except, cur_execute. rewrite Hu, Ho, Hab, Hs. simpl.
  rewrite (writer_stmt_error_caught pg _ _ _ _ _ _ Hs).
  unfold_M. simpl. rewrite Hc, Hf. reflexivity.
Qed.

(** With the connection held and a rollback that answers, no writer leaves
    the transaction in the failed state. *)
Lemma guarded_write_not_aborted w it s r s' :
  self_conn s = true -> rollback_fault (faults s) = None ->
  tx_aborted s = false ->
  guarded_write pg w it s = (r, s') -> tx_aborted s' = false.
Proof.
  intros Hc Hf Hab H. unfold guarded_write in H.
  destruct (all (adapter_get it <$> required_fields w)); simpl in H;
    [|crush_M].
  unfold try_except in H.
  destruct (cur_execute (writer_stmt pg w it) s) as [[a|e0] s1] eqn:E.
  - simplify_eq. unfold cur_execute in E. repeat (case_match; simplify_eq); done.
  - unfold cur_execute in E.
    repeat (case_match; simplify_eq); try done; try (crush_M; fail).
    + unfold_M. simpl in H. rewrite Hc, Hf in H. simpl in H. by simplify_eq.
    + match goal with
      | Hs : writer_stmt _ _ _ _ _ = StmtErr _ _ |- _ =>
        apply writer_stmt_error_caught in Hs; congruence
      end.
Qed.

End WriterOutcomes.

(** ** The required-field check *)

Section RequiredFields.

Context (pg : server_casts).

(** A writer given an item with a falsy required field returns at once:
    the only change to the state is one warning in the log. *)
Lemma run_writer_skips w it s field :
  field ∈ required_fields w ->
  truthy (adapter_get it field) = false ->
  run_writer pg w it s = (Return tt, add_log s (skip_warning w)).
Proof.
  intros Hin Hv. rewrite run_writer_guarded. apply guarded_write_skip.
  eapply all_false_of_falsy; [|exact Hv].
  apply list_elem_of_fmap. eauto.
Qed.

End RequiredFields.

(** C6. A writer given an item that lacks one of the fields it requires
    (for a shot: [player_id], [game_id], [team_id]) returns normally, stores
    nothing and leaves the transaction as it was: the open transaction's
    view, the committed database, the failed-transaction flag and the shot
    sequence are unchanged, and the log gains exactly one warning. *)
Theorem missing_required_field_skips_write pg w it s field :
  field ∈ required_fields w ->
  it !! field = None ->
  exists s',
    run_writer pg w it s = (Return tt, s') /\
    working s' = working s /\ committed s' = committed s /\
    tx_aborted s' = tx_aborted s /\ shots_seq s' = shots_seq s /\
    log s' = log s ++ [skip_warning w].
Proof.
  intros Hin Habsent. exists (add_log s (skip_warning w)).
  split; [|by repeat split].
  apply (run_writer_skips pg w it s field Hin).
  by rewrite adapter_get_absent.
Qed.

Lemma missing_required_field_skips_write_witness :
  "id" ∈ required_fields TeamWriter /\
  team_without_id !! "id" = None /\
  exists s',
    run_writer plain_casts TeamWriter team_without_id
      (in_scope (set_teams empty_schema
                   [{| team_id := "BOS"; team_name := None; team_logo := None |}]))
    = (Return tt, s') /\
    teams_table (working s') =
      Some [{| team_id := "BOS"; team_name := None; team_logo := None |}] /\
    log s' = [skip_warning TeamWriter].
Proof.
  split; [apply list_elem_of_here|]. split; [reflexivity|].
  destruct (missing_required_field_skips_write plain_casts TeamWriter team_without_id
              (in_scope (set_teams empty_schema
                 [{| team_id := "BOS"; team_name := None; team_logo := None |}]))
              "id" (list_elem_of_here _ _) eq_refl)
    as (s' & Hrun & Hw & _ & _ & _ & Hlog).
  exists s'. split; [exact Hrun|]. rewrite Hw, Hlog. split; reflexivity.
Defined.

(** C10. The check of a writer is a truth test, not a presence test: a
    required field that is present with a falsy value ([0], the empty
    string, [False], [0.0]) makes the writer skip the write exactly as an
    absent field does. It returns normally and the state changes by one
    warning in the log only. *)
Theorem falsy_required_field_skips_write pg w it s field :
  field ∈ required_fields w ->
  truthy (adapter_get it field) = false ->
  run_writer pg w it s = (Return tt, add_log s (skip_warning w)).
Proof. apply run_writer_skips. Qed.

Lemma falsy_required_field_skips_write_witness :
  (player_zero !! "player_id" = Some (PyInt 0) /\
   insert_player plain_casts player_zero (in_scope empty_schema)
   = (Return tt, add_log (in_scope empty_schema) (skip_warning PlayerWriter))) /\
  (team_empty_id !! "id" = Some (PyStr "") /\
   insert_team plain_casts team_empty_id (in_scope empty_schema)
   = (Return tt, add_log (in_scope empty_schema) (skip_warning TeamWriter))).
Proof.
  split; (split; [reflexivity|]).
  - apply (falsy_required_field_skips_write plain_casts PlayerWriter player_zero
             (in_scope empty_schema) "player_id" (list_elem_of_here _ _) eq_refl).
  - apply (falsy_required_field_skips_write plain_casts TeamWriter team_empty_id
             (in_scope empty_schema) "id" (list_elem_of_here _ _) eq_refl).
Defined.

(** ** Hard failures *)

(** C2. A writer that raises a constraint violation (not-null, foreign-key
    or uniqueness) has rolled the transaction back before the exception
    reaches its caller: the transaction's view is the committed database
    again, so the rows of the failed write and of the earlier writes of the
    scope are gone. When that exception leaves the scope, the [with]
    statement raises and the committed database is the one the scope
    started from. *)
Theorem constraint_violation_rolls_back pg cs w it s0 s1 s2 e s3 :
  __enter__ s0 = (Return tt, s1) ->
  run_calls pg cs s1 = (Return tt, s2) ->
  run_writer pg w it s2 = (Raise e, s3) ->
  is_constraint_violation e = true ->
  rollback_fault (faults s0) = None ->
  (working s3 = committed s0 /\ committed s3 = committed s0 /\
   tx_aborted s3 = false) /\
  exists e' s_end,
    with_DatabaseManager (run_calls pg (cs ++ [Insert w it])) s0 = (Raise e', s_end) /\
    committed s_end = committed s0 /\
    (close_fault (faults s0) = None -> putconn_fault (faults s0) = None ->
     e' = e /\ working s_end = committed s0).
Proof.
  intros He Hcs Hw Hcv Hf.
  pose proof (enter_Return _ _ He) as (Hc1&Hu1&_&_&Hcm1&_&Hf1&_).
  pose proof (run_calls_same_scope pg _ _ _ _ Hcs) as (Hcm2&Hf2&Hc2&Hu2&_).
  pose proof (run_writer_same_scope pg _ _ _ _ _ Hw) as (Hcm3&Hf3&Hc3&Hu3&_).
  assert (Hroll : working s3 = committed s2 /\ committed s3 = committed s2 /\
                  tx_aborted s3 = false).
  { rewrite run_writer_guarded in Hw.
    eapply guarded_write_raise in Hw as (?&?&?&_); [done|congruence|].
    by apply constraint_violation_is_psycopg2. }
  destruct Hroll as (Hw3&_&Hab3).
  split; [repeat split; congruence|].
  assert (Hbody : run_calls pg (cs ++ [Insert w it]) s1 = (Raise e, s3)).
  { rewrite run_calls_app. unfold bind at 1. rewrite Hcs. simpl.
    unfold bind. by rewrite Hw. }
  rewrite (with_unfold _ s0 s1 _ s3 He Hbody).
  destruct (__exit__ (Some e) s3) as [[[]|e'] s_end] eqn:Hexit.
  - exists e, s_end. pose proof (exit_failure_commits_nothing _ _ _ _ Hexit).
    split; [done|]. split; [congruence|]. intros Hcl Hpc.
    destruct (exit_failure e s3) as (s'&Hx&_&_&_&Hwx&_); try congruence.
    rewrite Hexit in Hx. simplify_eq. split; [done|congruence].
  - exists e', s_end. pose proof (exit_failure_commits_nothing _ _ _ _ Hexit).
    split; [done|]. split; [congruence|]. intros Hcl Hpc.
    destruct (exit_failure e s3) as (s'&Hx&_); try congruence.
Qed.

Lemma constraint_violation_rolls_back_witness :
  exists s3 s_end,
    insert_shot plain_casts shot_7
      (snd (run_calls plain_casts
              [Insert TeamWriter lakers; Insert PlayerWriter player_7]
              (snd (__enter__ (initial_state empty_schema)))))
    = (Raise ForeignKeyViolation, s3) /\
    working s3 = empty_schema /\
    with_DatabaseManager
      (run_calls plain_casts
         [Insert TeamWriter lakers; Insert PlayerWriter player_7;
          Insert ShotWriter shot_7])
      (initial_state empty_schema)
    = (Raise ForeignKeyViolation, s_end) /\
    committed s_end = empty_schema /\ working s_end = empty_schema.
Proof.
  edestruct (constraint_violation_rolls_back plain_casts
               [Insert TeamWriter lakers; Insert PlayerWriter player_7]
               ShotWriter shot_7
               (initial_state empty_schema)
               (snd (__enter__ (initial_state empty_schema)))
               (snd (run_calls plain_casts
                       [Insert TeamWriter lakers; Insert PlayerWriter player_7]
                       (snd (__enter__ (initial_state empty_schema)))))
               ForeignKeyViolation
               (snd (insert_shot plain_casts shot_7
                       (snd (run_calls plain_casts
                               [Insert TeamWriter lakers; Insert PlayerWriter player_7]
                               (snd (__enter__ (initial_state empty_schema))))))))
    as ((Hw & _ & _) & e' & s_end & Hrun & Hcm & Hrest);
    try (vm_compute; reflexivity).
  destruct Hrest as (-> & Hwe); try (vm_compute; reflexivity).
  eexists _, s_end. split; [vm_compute; reflexivity|]. split; [exact Hw|].
  split; [exact Hrun|]. split; [exact Hcm|exact Hwe].
Defined.

(** ** Bodies made of the manager's methods *)

Section Bodies.

Context (pg : server_casts).

Lemma sql_script_error cs d seq e seq' :
  sql_script cs d seq = StmtErr e seq' -> is_Exception e = true.
Proof.
  revert d seq. induction cs as [|c cs IH]; intros d seq; simpl; [done|].
  unfold sql_create_table. repeat case_match; intros; simplify_eq; eauto.
Qed.

Lemma sql_select_game_ids_error season d seq e seq' :
  sql_select_game_ids pg season d seq = StmtErr e seq' -> is_Exception e = true.
Proof. unfold sql_select_game_ids. repeat case_match; intros; by simplify_eq. Qed.

(** A statement run under [try: ... except Exception: log; rollback; raise]
    never leaves the transaction failed when the rollback answers. *)
Lemma execute_or_rollback_not_aborted {A} (stmt : sql_stmt A) (k : A -> M A) site s r s' :
  (forall d seq e seq', stmt d seq = StmtErr e seq' -> is_Exception e = true) ->
  (forall a s1 r1 s2, k a s1 = (r1, s2) ->
     (exists b, r1 = Return b) /\ tx_aborted s2 = tx_aborted s1) ->
  self_conn s = true -> rollback_fault (faults s) = None -> tx_aborted s = false ->
  try_except (a <- cur_execute stmt ;; k a) is_Exception
    (fun e => logger_error site e ;; conn_rollback ;; raise e) s = (r, s') ->
  tx_aborted s' = false.
Proof.
  intros Hse Hk Hc Hf Hab H. unfold try_except, bind at 1 in H.
  unfold cur_execute in H.
  destruct (negb (self_cur s)); [crush_M|].
  destruct (negb (cur_open s)); [crush_M|].
  rewrite Hab in H.
  destruct (stmt (working s) (shots_seq s)) as [d seq a|e seq] eqn:Hs.
  - destruct (k a _) as [[b|e] s1] eqn:Hka; apply Hk in Hka as [[b' Hb] Hka];
      simpl in Hka; by simplify_eq.
  - rewrite (Hse _ _ _ _ Hs) in H.
    unfold_M. simpl in H. rewrite Hc, Hf in H. simpl in H. by simplify_eq.
Qed.

Lemma run_call_not_aborted c s r s' :
  self_conn s = true -> rollback_fault (faults s) = None -> tx_aborted s = false ->
  run_call pg c s = (r, s') -> tx_aborted s' = false.
Proof.
  intros Hc Hf Hab. destruct c; simpl.
  - unfold create_tables.
    apply (execute_or_rollback_not_aborted (sql_script schema_ddl)
             (fun _ => logger_info "create_tables")); try done.
    + apply sql_script_error.
    + intros a s1 r1 s2 Hk. unfold_M. simplify_eq. split; [eauto|done].
  - unfold bind at 1.
    destruct (get_id_games_by_season pg season s) as [[a|e] s1] eqn:E;
      unfold ret; intros; simplify_eq;
      apply (execute_or_rollback_not_aborted (sql_select_game_ids pg season)
               (fun results => ret results)) in E; try done;
      try apply sql_select_game_ids_error;
      intros a0 s1 r1 s2 Hk; unfold_M; simplify_eq; (split; [eauto|done]).
  - rewrite run_writer_guarded. by apply guarded_write_not_aborted.
  - unfold raise. intros. by simplify_eq.
Qed.

Lemma run_calls_not_aborted cs s r s' :
  self_conn s = true -> rollback_fault (faults s) = None -> tx_aborted s = false ->
  run_calls pg cs s = (r, s') -> tx_aborted s' = false.
Proof.
  revert s. induction cs as [|c cs IH]; intros s Hc Hf Hab; simpl.
  - unfold ret. intros. by simplify_eq.
  - unfold bind. destruct (run_call pg c s) as [[a|e] s1] eqn:E.
    + pose proof (run_call_same_scope pg _ _ _ _ E) as (_&Hf1&Hc1&_).
      apply IH; [congruence|congruence|]. by eapply run_call_not_aborted.
    + intros. simplify_eq. by eapply run_call_not_aborted.
Qed.

(** A scope around any sequence of the manager's methods, with a driver that
    answers and a pool that has a connection: the [with] statement ends with
    the body's own outcome, the cursor closed, the connection back in the
    pool, and the body's changes committed exactly when the body returned. *)
Lemma scope_of_calls cs s0 :
  faults s0 = no_faults -> (pool_used s0 < maxconn)%nat ->
  exists s1 r s2 s3,
    __enter__ s0 = (Return tt, s1) /\
    run_calls pg cs s1 = (r, s2) /\
    with_DatabaseManager (run_calls pg cs) s0 = (r, s3) /\
    cur_open s3 = false /\ pool_used s3 = pool_used s0 /\
    match r with
    | Return _ => committed s3 = working s2
    | Raise _ => committed s3 = committed s0
    end.
Proof.
  intros Hf Hp.
  destruct (enter_succeeds s0) as [s1 He]; [by rewrite Hf|done|].
  destruct (run_calls pg cs s1) as [r s2] eqn:Hb.
  pose proof (enter_Return _ _ He) as (Hc1&Hu1&_&Hab1&Hcm1&_&Hf1&Hp1&_).
  pose proof (run_calls_same_scope pg _ _ _ _ Hb) as (Hcm2&Hf2&Hc2&Hu2&_&Hp2).
  assert (tx_aborted s2 = false) as Hab2.
  { eapply run_calls_not_aborted; [| |exact Hab1|exact Hb]; [done|].
    by rewrite Hf1, Hf. }
  assert (faults s2 = no_faults) as Hfs by congruence.
  exists s1, r, s2. rewrite (with_unfold _ s0 s1 r s2 He Hb).
  destruct r as [a|e].
  - destruct (exit_normal s2) as (s3&->&Ho&Hp3&Hcm&_); try congruence;
      try (rewrite Hfs; reflexivity).
    exists s3. rewrite Hab2 in Hcm. repeat split; try done. lia.
  - destruct (exit_failure e s2) as (s3&->&Ho&Hp3&Hcm&_); try congruence;
      try (rewrite Hfs; reflexivity).
    exists s3. repeat split; try done; [lia|congruence].
Qed.

End Bodies.

(** ** Schema creation *)

(** The script of [create_tables] succeeds on every database: it creates
    the absent relations and keeps the present ones. *)
Lemma sql_script_schema_ddl d seq :
  sql_script schema_ddl d seq =
  StmtOk (create_missing d)
    (if bool_decide (is_Some (shots_table d)) then seq else 0) tt.
Proof.
  destruct d as [[t|] [p|] [r|] [g|] [sh|]]; reflexivity.
Qed.

(** On a database that has the five relations the script changes nothing. *)
Lemma create_missing_idem d : create_missing (create_missing d) = create_missing d.
Proof. reflexivity. Qed.

Lemma create_missing_exists d t : table_exists (create_missing d) t = true.
Proof. by destruct t. Qed.

Lemma create_tables_run s :
  self_cur s = true -> cur_open s = true -> tx_aborted s = false ->
  create_tables s =
  (Return tt,
   add_log
     (set_shots_seq (set_tx s (committed s) (create_missing (working s)) false)
        (if bool_decide (is_Some (shots_table (working s))) then shots_seq s else 0))
     {| log_level_of := INFO; log_site := "create_tables"; log_exn := None |}).
Proof.
  intros Hu Ho Hab. unfold create_tables. unfold_M.
  rewrite Hu, Ho, Hab. cbn [negb]. rewrite sql_script_schema_ddl. reflexivity.
Qed.

(** C8. [create_tables] can be invoked twice in a row, in one scope or in
    two scopes that each commit: both invocations return, and the second
    one leaves the data, the schema and the shot sequence as the first one
    left them. The script is create-if-absent for the five relations, each
    statement references only relations defined earlier in it, and the
    relations without a foreign key come first. *)
Theorem create_tables_idempotent :
  (forall s,
     self_cur s = true -> cur_open s = true -> tx_aborted s = false ->
     exists s1 s2,
       create_tables s = (Return tt, s1) /\
       create_tables s1 = (Return tt, s2) /\
       working s1 = create_missing (working s) /\
       working s2 = working s1 /\ committed s2 = committed s1 /\
       shots_seq s2 = shots_seq s1 /\ tx_aborted s2 = false) /\
  (forall s0,
     faults s0 = no_faults -> (pool_used s0 < maxconn)%nat ->
     exists s1 s2,
       with_DatabaseManager create_tables s0 = (Return tt, s1) /\
       with_DatabaseManager create_tables s1 = (Return tt, s2) /\
       committed s1 = create_missing (committed s0) /\
       committed s2 = committed s1 /\ shots_seq s2 = shots_seq s1 /\
       pool_used s2 = pool_used s0) /\
  ct_table <$> schema_ddl = [teams; players; player_teams_by_season; games; shots] /\
  in_dependency_order [] schema_ddl = true /\
  fk_free_first schema_ddl = true.
Proof.
  split; [|split; [|by repeat split]].
  - intros s Hu Ho Hab.
    eexists _, _. split; [by apply create_tables_run|].
    split; [by apply create_tables_run|]. by repeat split.
  - intros s0 Hf Hp.
    assert (Hscope : forall s, faults s = no_faults -> (pool_used s < maxconn)%nat ->
      exists s', with_DatabaseManager create_tables s = (Return tt, s') /\
        committed s' = create_missing (committed s) /\
        shots_seq s' = (if bool_decide (is_Some (shots_table (committed s)))
                        then shots_seq s else 0) /\
        pool_used s' = pool_used s /\ faults s' = faults s).
    { intros s Hfs Hps.
      destruct (enter_succeeds s) as [sa He]; [by rewrite Hfs|done|].
      pose proof (enter_Return _ _ He) as (Hc&Hu&Ho&Hab&Hcm&Hw&Hfa&Hpa&_&Hsq).
      pose proof (create_tables_run sa Hu Ho Hab) as Hrun.
      rewrite (with_unfold _ _ _ _ _ He Hrun).
      match type of Hrun with _ = (_, ?sb) =>
        destruct (exit_normal sb) as (sc&->&_&Hpc&Hcc&_&_&_&Hsc&Hfc);
          simpl; try done; try (rewrite Hfa, Hfs; reflexivity)
      end.
      exists sc. split; [done|]. simpl in *.
      rewrite Hcc, Hsc, Hpc, Hfc, Hw, Hsq, Hpa, Hfa. by repeat split. }
    destruct (Hscope s0 Hf Hp) as (s1&H1&Hc1&Hs1&Hp1&Hf1).
    destruct (Hscope s1) as (s2&H2&Hc2&Hs2&Hp2&Hf2); [congruence|lia|].
    exists s1, s2. repeat split; try done.
    + rewrite Hc2, Hc1. reflexivity.
    + rewrite Hs2, Hc1. reflexivity.
    + congruence.
Qed.

Lemma create_tables_idempotent_witness :
  (exists s1 s2,
     create_tables (in_scope (set_teams empty_db [boston])) = (Return tt, s1) /\
     create_tables s1 = (Return tt, s2) /\
     working s1 = set_teams empty_schema [boston] /\
     working s2 = working s1) /\
  (exists s1 s2,
     with_DatabaseManager create_tables (initial_state empty_db) = (Return tt, s1) /\
     with_DatabaseManager create_tables s1 = (Return tt, s2) /\
     committed s1 = empty_schema /\ committed s2 = committed s1).
Proof.
  split.
  - destruct (proj1 create_tables_idempotent
                (in_scope (set_teams empty_db [boston])) eq_refl eq_refl eq_refl)
      as (s1 & s2 & H1 & H2 & Hw1 & Hw2 & _).
    exists s1, s2. split; [exact H1|]. split; [exact H2|].
    split; [exact Hw1|exact Hw2].
  - destruct (proj1 (proj2 create_tables_idempotent)
                (initial_state empty_db) eq_refl) as (s1 & s2 & H1 & H2 & Hc1 & Hc2 & _).
    + unfold maxconn. simpl. lia.
    + exists s1, s2. split; [exact H1|]. split; [exact H2|].
      split; [exact Hc1|exact Hc2].
Defined.

(** ** The season query *)

Lemma state_eta s :
  set_shots_seq (set_tx s (committed s) (working s) (tx_aborted s)) (shots_seq s) = s.
Proof. by destruct s. Qed.

(** C9. [get_id_games_by_season season], on a usable cursor over a schema
    that has [games_table], for a season the server accepts as an operand:
    it returns, without repetition, the identifiers of exactly the rows of
    [games_table] whose season column equals the season; the state is left
    exactly as it was (nothing written, nothing logged); and when no row
    matches, the result is the empty list. *)
Theorem get_id_games_by_season_exact pg season v s rows :
  self_cur s = true -> cur_open s = true -> tx_aborted s = false ->
  games_table (working s) = Some rows ->
  param (to_operand pg) season = Some (Some v) ->
  exists ids,
    get_id_games_by_season pg season s = (Return ids, s) /\
    NoDup ids /\
    (forall id, id ∈ ids <->
       exists r, r ∈ rows /\ game_id r = id /\ game_season r = Some v) /\
    ((forall r, r ∈ rows -> game_season r <> Some v) -> ids = []).
Proof.
  intros Hu Ho Hab Hg Hop.
  set (ids := remove_dups
                (game_id <$> filter (fun r => is_Some (Some v) /\ game_season r = Some v) rows)).
  assert (Hmem : forall id, id ∈ ids <->
            exists r, r ∈ rows /\ game_id r = id /\ game_season r = Some v).
  { intros id. unfold ids. rewrite elem_of_remove_dups, list_elem_of_fmap.
    split.
    - intros (r & -> & Hr). apply list_elem_of_filter in Hr as ((_ & Hs) & Hr). eauto.
    - intros (r & Hr & <- & Hs). exists r. split; [done|].
      apply list_elem_of_filter. by eauto. }
  exists ids. split; [|split; [apply NoDup_remove_dups|split; [exact Hmem|]]].
  - unfold get_id_games_by_season. unfold_M. rewrite Hu, Ho, Hab. simpl.
    unfold sql_select_game_ids. rewrite Hg, Hop. simpl.
    rewrite <- Hab at 1. by rewrite state_eta.
  - intros Hnone. destruct ids as [|id ids'] eqn:E; [done|].
    destruct (proj1 (Hmem id)) as (r & Hr & _ & Hs); [apply list_elem_of_here|].
    by destruct (Hnone r Hr).
Qed.

Lemma get_id_games_by_season_exact_witness :
  (exists ids,
     get_id_games_by_season plain_casts (PyStr "2023") three_games
     = (Return ids, three_games) /\
     NoDup ids /\
     (forall id, id ∈ ids <->
        exists r, r ∈ rows_of (games_table (working three_games)) /\
                  game_id r = id /\ game_season r = Some "2023") /\
     ((forall r, r ∈ rows_of (games_table (working three_games)) ->
                 game_season r <> Some "2023") -> ids = [])) /\
  fst (get_id_games_by_season plain_casts (PyStr "2023") three_games) = Return [10; 11] /\
  fst (get_id_games_by_season plain_casts (PyStr "2025") three_games) = Return [].
Proof.
  split; [|split; vm_compute; reflexivity].
  apply (get_id_games_by_season_exact plain_casts (PyStr "2023") "2023" three_games
           (rows_of (games_table (working three_games)))
           eq_refl eq_refl eq_refl eq_refl eq_refl).
Defined.

(** ** The conflict policies on lists of rows *)

Section ConflictPolicies.

Context {R K : Type} `{EqDecision K} (key : R -> K).



Lemma filter_key_absent k rows :
  filter (fun r => key r = k) rows = [] <-> k ∉ key <$> rows.
Proof.
  induction rows as [|r rows IH]; simpl.
  - split; [intros _; apply not_elem_of_nil|done].
  - rewrite filter_cons. destruct (decide (key r = k)) as [Heq|Hne].
    + split; [done|]. intros Hn. destruct Hn. rewrite Heq. apply list_elem_of_here.
    + rewrite IH. rewrite not_elem_of_cons. split; [by intros ?; split|by intros [_ ?]].
Qed.



Lemma do_nothing_keeps_NoDup row rows :
  NoDup (key <$> rows) -> NoDup (key <$> on_conflict_do_nothing key row rows).
Proof.
  intros Hnd. unfold on_conflict_do_nothing. case_bool_decide; [done|].
  rewrite fmap_app. apply NoDup_app. split; [done|]. split.
  - intros x Hx Hx'. apply list_elem_of_singleton in Hx'. by subst.
  - apply NoDup_singleton.
Qed.

Lemma do_update_keys row rows :
  key row ∈ key <$> rows ->
  key <$> on_conflict_do_update key row rows = key <$> rows.
Proof.
  intros Hin. unfold on_conflict_do_update. rewrite bool_decide_eq_true_2 by done.
  clear Hin. induction rows as [|r rows IH]; csimpl; [done|].
  rewrite IH. f_equal. by case_bool_decide.
Qed.

Lemma do_update_keeps_NoDup row rows :
  NoDup (key <$> rows) -> NoDup (key <$> on_conflict_do_update key row rows).
Proof.
  intros Hnd. destruct (decide (key row ∈ key <$> rows)) as [Hin|Hout].
  - by rewrite do_update_keys.
  - unfold on_conflict_do_update. rewrite bool_decide_eq_false_2 by done.
    rewrite fmap_app. apply NoDup_app. split; [done|]. split.
    + intros x Hx Hx'. apply list_elem_of_singleton in Hx'. by subst.
    + apply NoDup_singleton.
Qed.

Lemma do_update_present row rows :
  key row ∈ key <$> on_conflict_do_update key row rows.
Proof.
  destruct (decide (key row ∈ key <$> rows)) as [Hin|Hout].
  - by rewrite do_update_keys.
  - unfold on_conflict_do_update. rewrite bool_decide_eq_false_2 by done.
    rewrite fmap_app. apply elem_of_app. right. apply list_elem_of_here.
Qed.

(** With unique keys, the rows under a key are at most one. *)
Lemma filter_key_NoDup k rows :
  NoDup (key <$> rows) ->
  filter (fun r => key r = k) rows = [] \/
  exists r, filter (fun r => key r = k) rows = [r].
Proof.
  induction rows as [|r rows IH]; simpl; [by left|].
  intros Hnd. apply NoDup_cons in Hnd as [Hnotin Hnd].
  rewrite filter_cons. destruct (decide (key r = k)) as [Heq|Hne]; [|by apply IH].
  right. exists r. f_equal. apply filter_key_absent. by rewrite <- Heq.
Qed.




End ConflictPolicies.

(** ** What a successful statement did *)

Ltac sum_inr H :=
  sum_cases H; try discriminate;
  repeat match goal with
  | E : not_null ?x = inr _ |- _ => destruct x; simpl in E; simplify_eq
  end;
  simplify_eq.

Section StatementResults.

Context (pg : server_casts).

Lemma team_values_key a b c row :
  team_values pg a b c = inr row ->
  col TextColumn (to_varchar pg 100) a = inr (Some (team_id row)).
Proof. unfold team_values. intros H. sum_inr H. done. Qed.

Lemma player_values_key a b c row :
  player_values pg a b c = inr row ->
  col NumberColumn (to_integer pg) a = inr (Some (player_id row)).
Proof. unfold player_values. intros H. sum_inr H. done. Qed.

Lemma roster_values_key a b c n row :
  roster_values pg a b c n = inr row ->
  col NumberColumn (to_integer pg) a = inr (Some (roster_player_id row)) /\
  col TextColumn (to_varchar pg 100) b = inr (Some (roster_team_id row)) /\
  col TextColumn (to_varchar pg 20) c = inr (Some (roster_season row)).
Proof. unfold roster_values. intros H. sum_inr H. done. Qed.


Lemma sql_insert_team_ok a b c d seq d' seq' :
  sql_insert_team pg a b c d seq = StmtOk d' seq' tt ->
  exists rows row,
    teams_table d = Some rows /\ team_values pg a b c = inr row /\
    d' = set_teams d (on_conflict_do_nothing team_id row rows) /\ seq' = seq.
Proof.
  unfold sql_insert_team. intros H. repeat (case_match; simplify_eq).
  eexists _, _. by repeat split.
Qed.

Lemma sql_insert_player_ok a b c d seq d' seq' :
  sql_insert_player pg a b c d seq = StmtOk d' seq' tt ->
  exists rows row,
    players_table d = Some rows /\ player_values pg a b c = inr row /\
    d' = set_players d (on_conflict_do_nothing player_id row rows) /\ seq' = seq.
Proof.
  unfold sql_insert_player. intros H. repeat (case_match; simplify_eq).
  eexists _, _. by repeat split.
Qed.

Lemma sql_insert_player_team_by_season_ok a b c n d seq d' seq' :
  sql_insert_player_team_by_season pg a b c n d seq = StmtOk d' seq' tt ->
  exists rows row,
    player_teams_by_season_table d = Some rows /\
    roster_values pg a b c n = inr row /\ seq' = seq /\
    ((roster_key row ∈ (roster_key <$> rows) /\ d' = d) \/
     ((roster_key row ∉ roster_key <$> rows) /\ roster_fks row d = inr tt /\
      d' = set_roster d (rows ++ [row]))).
Proof.
  unfold sql_insert_player_team_by_season. intros H.
  repeat (case_match; simplify_eq).
  - eexists _, _. repeat split; try done. left.
    split; [|done]. by eapply bool_decide_eq_true_1.
  - eexists _, _. repeat split; try done. right.
    split; [by eapply bool_decide_eq_false_1|].
    repeat match goal with u : unit |- _ => destruct u end. done.
Qed.

Lemma sql_insert_game_ok v1 v2 v3 v4 v5 v6 v7 v8 v9 v10 v11 v12 d seq d' seq' :
  sql_insert_game pg v1 v2 v3 v4 v5 v6 v7 v8 v9 v10 v11 v12 d seq = StmtOk d' seq' tt ->
  exists rows row,
    games_table d = Some rows /\
    game_values pg v1 v2 v3 v4 v5 v6 v7 v8 v9 v10 v11 v12 = inr row /\
    game_fks row d = inr tt /\
    d' = set_games d (on_conflict_do_update game_id row rows) /\ seq' = seq.
Proof.
  unfold sql_insert_game. intros H. repeat (case_match; simplify_eq).
  repeat match goal with u : unit |- _ => destruct u end.
  eexists _, _. by repeat split.
Qed.

Lemma sql_insert_shot_ok v1 v2 v3 v4 v5 v6 v7 v8 d seq d' seq' :
  sql_insert_shot pg v1 v2 v3 v4 v5 v6 v7 v8 d seq = StmtOk d' seq' tt ->
  exists rows row,
    shots_table d = Some rows /\
    shot_values pg v1 v2 v3 v4 v5 v6 v7 v8 (seq + 1) = inr row /\
    seq + 1 <= serial_max /\
    shot_constraints row rows d = inr tt /\
    d' = set_shots d (rows ++ [row]) /\ seq' = seq + 1.
Proof.
  unfold sql_insert_shot. intros H. repeat (case_match; simplify_eq).
  repeat match goal with u : unit |- _ => destruct u end.
  eexists _, _. repeat split; try done. by eapply bool_decide_eq_true_1.
Qed.

End StatementResults.

(** ** From statements to scopes *)

Section Lifting.

Context (pg : server_casts).










End Lifting.

(** ** Rows and items *)

Section RowsOfItems.

Context (pg : server_casts).









End RowsOfItems.

(** ** The idempotent writers *)

Section Idempotent.

Context (pg : server_casts).




End Idempotent.



(** ** The game upsert *)



(** ** The shot writer *)

Section Shots.

Context (pg : server_casts).

(** The values of a shot do not depend on the id it is given. *)
Lemma shot_values_any_id v1 v2 v3 v4 v5 v6 v7 v8 id0 row0 id :
  shot_values pg v1 v2 v3 v4 v5 v6 v7 v8 id0 = inr row0 ->
  shot_values pg v1 v2 v3 v4 v5 v6 v7 v8 id =
  inr {| shot_id := id;
         shot_player_id := shot_player_id row0; shot_game_id := shot_game_id row0;
         shot_team_id := shot_team_id row0; shot_quarter := shot_quarter row0;
         shot_time := shot_time row0; shot_type := shot_type row0;
         shot_x_location := shot_x_location row0;
         shot_y_location := shot_y_location row0 |}.
Proof.
  unfold shot_values. intros H. sum_cases H; try discriminate. simplify_eq.
  reflexivity.
Qed.

Lemma shot_values_id v1 v2 v3 v4 v5 v6 v7 v8 id row :
  shot_values pg v1 v2 v3 v4 v5 v6 v7 v8 id = inr row -> shot_id row = id.
Proof.
  unfold shot_values. intros H. sum_cases H; try discriminate. by simplify_eq.
Qed.


Lemma shot_constraints_fresh row rows d u :
  shot_constraints row rows d = inr u -> shot_id row ∉ shot_id <$> rows.
Proof.
  unfold shot_constraints. intros H. sum_cases H; try discriminate.
  match goal with E : check (negb _) _ = inr _ |- _ => apply check_ok in E end.
  apply negb_true_iff in E. by apply bool_decide_eq_false_1 in E.
Qed.


End Shots.



(** ** Further behaviour of the scope *)

(** When the pool has no connection left, [__enter__] raises [PoolError]
    after logging it, acquires nothing, and the [with] statement ends there:
    the body does not run and [__exit__] is not called. *)
Theorem enter_pool_exhausted {A} (body : M A) s :
  getconn_fault (faults s) = None ->
  (maxconn <= pool_used s)%nat ->
  __enter__ s =
    (Raise PoolError,
     add_log s {| log_level_of := ERROR; log_site := "__enter__";
                  log_exn := Some PoolError |}) /\
  with_DatabaseManager body s =
    (Raise PoolError,
     add_log s {| log_level_of := ERROR; log_site := "__enter__";
                  log_exn := Some PoolError |}).
Proof.
  intros Hf Hp.
  assert (He : __enter__ s =
    (Raise PoolError,
     add_log s {| log_level_of := ERROR; log_site := "__enter__";
                  log_exn := Some PoolError |})).
  { unfold __enter__. unfold_M. rewrite Hf.
    rewrite bool_decide_eq_true_2 by done. reflexivity. }
  split; [exact He|]. unfold with_DatabaseManager. by rewrite He.
Qed.

Lemma enter_pool_exhausted_witness :
  with_DatabaseManager (insert_team plain_casts lakers)
    (set_pool_used (initial_state empty_schema) 32)
  = (Raise PoolError,
     add_log (set_pool_used (initial_state empty_schema) 32)
       {| log_level_of := ERROR; log_site := "__enter__";
          log_exn := Some PoolError |}).
Proof.
  refine (proj2 (enter_pool_exhausted (insert_team plain_casts lakers)
                   (set_pool_used (initial_state empty_schema) 32) _ _)).
  - reflexivity.
  - unfold maxconn. simpl. lia.
Defined.

(** When the body returns and [commit] raises, the exception of [commit]
    leaves the [with] statement: the cursor has been closed, nothing has
    been committed, and the connection is never handed back to the pool. *)
Theorem scope_commit_failure_keeps_connection {A} (body : M A) s0 s1 a s2 e :
  __enter__ s0 = (Return tt, s1) ->
  body s1 = (Return a, s2) ->
  self_conn s2 = true -> self_cur s2 = true ->
  close_fault (faults s2) = None ->
  commit_fault (faults s2) = Some e ->
  with_DatabaseManager body s0 = (Raise e, set_cur_open s2 false) /\
  committed (set_cur_open s2 false) = committed s2 /\
  pool_used (set_cur_open s2 false) = pool_used s2.
Proof.
  intros He Hb Hc Hu Hcl Hcm.
  rewrite (with_unfold body s0 s1 _ s2 He Hb).
  unfold __exit__. unfold_M. simpl.
  rewrite Hu, Hcl. simpl. rewrite Hc. simpl. rewrite Hc, Hcm. by repeat split.
Qed.

Lemma scope_commit_failure_keeps_connection_witness :
  fst (with_DatabaseManager (insert_team plain_casts lakers)
         (set_faults (initial_state empty_schema)
            {| getconn_fault := None; close_fault := None;
               commit_fault := Some OperationalError;
               rollback_fault := None; putconn_fault := None |}))
  = Raise OperationalError.
Proof.
  refine (f_equal fst
    (proj1 (scope_commit_failure_keeps_connection (insert_team plain_casts lakers)
       (set_faults (initial_state empty_schema)
          {| getconn_fault := None; close_fault := None;
             commit_fault := Some OperationalError;
             rollback_fault := None; putconn_fault := None |})
       (snd (__enter__ (set_faults (initial_state empty_schema)
          {| getconn_fault := None; close_fault := None;
             commit_fault := Some OperationalError;
             rollback_fault := None; putconn_fault := None |})))
       tt
       (snd (insert_team plain_casts lakers
          (snd (__enter__ (set_faults (initial_state empty_schema)
             {| getconn_fault := None; close_fault := None;
                commit_fault := Some OperationalError;
                rollback_fault := None; putconn_fault := None |})))))
       OperationalError _ _ _ _ _ _)));
    vm_compute; reflexivity.
Defined.

(** ** What the methods never do *)

(** No method of the manager commits, opens or closes the cursor, touches
    the pool or replaces the manager's handles: whatever a sequence of
    method calls returns or raises, the committed database, the cursor,
    the pool and the fields [self.conn] and [self.cur] are as before. *)
Theorem methods_never_commit pg cs s r s' :
  run_calls pg cs s = (r, s') ->
  committed s' = committed s /\ cur_open s' = cur_open s /\
  pool_used s' = pool_used s /\ self_conn s' = self_conn s /\
  self_cur s' = self_cur s.
Proof.
  intros H. apply run_calls_same_scope in H as (?&?&?&?&?&?). by repeat split.
Qed.

Lemma methods_never_commit_witness :
  committed (snd (run_calls plain_casts
                    [CreateTables; Insert TeamWriter lakers;
                     Insert ShotWriter shot_7;
                     GetIdGamesBySeason (PyStr "2023")]
                    (in_scope empty_db))) = empty_db.
Proof.
  refine (proj1 (methods_never_commit plain_casts
                   [CreateTables; Insert TeamWriter lakers;
                    Insert ShotWriter shot_7;
                    GetIdGamesBySeason (PyStr "2023")]
                   (in_scope empty_db)
                   (fst (run_calls plain_casts
                           [CreateTables; Insert TeamWriter lakers;
                            Insert ShotWriter shot_7;
                            GetIdGamesBySeason (PyStr "2023")]
                           (in_scope empty_db)))
                   _ _)).
  vm_compute; reflexivity.
Defined.

(** ** Further behaviour of the season query *)

Section Query.

Context (pg : server_casts).

(** The query on a usable cursor, as its statement computes it. *)
Lemma get_id_games_by_season_run season s rows operand :
  self_cur s = true -> cur_open s = true -> tx_aborted s = false ->
  games_table (working s) = Some rows ->
  param (to_operand pg) season = Some operand ->
  get_id_games_by_season pg season s =
  (Return (remove_dups
             (game_id <$> filter (fun r => is_Some operand /\ game_season r = operand) rows)),
   s).
Proof.
  intros Hu Ho Hab Hg Hop.
  unfold get_id_games_by_season. unfold_M. rewrite Hu, Ho, Hab. cbn [negb].
  unfold sql_select_game_ids. rewrite Hg, Hop.
  rewrite <- Hab at 1. by rewrite state_eta.
Qed.

Lemma do_update_row_in {R K : Type} `{EqDecision K} (key : R -> K) row rows :
  row ∈ on_conflict_do_update key row rows.
Proof.
  unfold on_conflict_do_update. case_bool_decide as Hin.
  - apply list_elem_of_fmap in Hin as (r & Hk & Hr).
    apply list_elem_of_fmap. exists r. split; [|done].
    by rewrite bool_decide_eq_true_2.
  - apply elem_of_app. right. apply list_elem_of_here.
Qed.

End Query.

(** A query that the server refuses (no [games_table], or a season value
    it cannot compare with the column) costs the scope its earlier writes:
    the method logs the error, rolls the whole transaction back and raises
    the server's error. *)
Theorem get_id_games_by_season_failure_rolls_back pg season s e :
  self_cur s = true -> self_conn s = true -> cur_open s = true ->
  tx_aborted s = false -> rollback_fault (faults s) = None ->
  (games_table (working s) = None /\ e = UndefinedTable) \/
  (is_Some (games_table (working s)) /\ param (to_operand pg) season = None /\
   e = ProgrammingError) ->
  exists s',
    get_id_games_by_season pg season s = (Raise e, s') /\
    working s' = committed s /\ committed s' = committed s /\
    tx_aborted s' = false /\
    log s' = log s ++ [{| log_level_of := ERROR; log_site := "get_id_games_by_season";
                          log_exn := Some e |}].
Proof.
  intros Hu Hc Ho Hab Hf Hcase.
  assert (Hs : sql_select_game_ids pg season (working s) (shots_seq s)
               = StmtErr e (shots_seq s)).
  { unfold sql_select_game_ids.
    destruct Hcase as [(Hg & ->)|([rows Hg] & Hop & ->)]; rewrite Hg; [done|].
    by rewrite Hop. }
  unfold get_id_games_by_season. unfold_M. rewrite Hu, Ho, Hab. cbn [negb].
  rewrite Hs.
  assert (is_Exception e = true) as ->.
  { by destruct Hcase as [(_ & ->)|(_ & _ & ->)]. }
  simpl. rewrite Hc, Hf. simpl. eexists. split; [reflexivity|]. by repeat split.
Qed.

Lemma get_id_games_by_season_failure_rolls_back_witness :
  exists s',
    get_id_games_by_season plain_casts (PyInt 2023)
      (snd (insert_team plain_casts lakers (in_scope empty_schema)))
    = (Raise ProgrammingError, s') /\
    teams_table (working s') = Some [].
Proof.
  edestruct (get_id_games_by_season_failure_rolls_back plain_casts (PyInt 2023)
               (snd (insert_team plain_casts lakers (in_scope empty_schema)))
               ProgrammingError)
    as (s' & Hrun & Hw & _); try (vm_compute; reflexivity).
  - right. split; [by eexists|]. split; reflexivity.
  - exists s'. split; [exact Hrun|]. rewrite Hw. reflexivity.
Defined.

(** A season of [None] is sent as NULL, which equals nothing: the query
    returns the empty list, whatever the table holds, and changes nothing. *)
Theorem get_id_games_by_season_None pg s rows :
  self_cur s = true -> cur_open s = true -> tx_aborted s = false ->
  games_table (working s) = Some rows ->
  get_id_games_by_season pg PyNone s = (Return [], s).
Proof.
  intros Hu Ho Hab Hg.
  rewrite (get_id_games_by_season_run pg PyNone s rows None) by done.
  assert (Hnil : forall l : list game_row,
            filter (fun r : game_row => is_Some (@None string) /\ game_season r = None) l
            = []).
  { intros l. induction l as [|r l IH]; [done|].
    rewrite filter_cons_False; [exact IH|]. intros [[x Hx] _]. discriminate. }
  by rewrite Hnil.
Qed.

Lemma get_id_games_by_season_None_witness :
  get_id_games_by_season plain_casts PyNone three_games = (Return [], three_games).
Proof.
  refine (get_id_games_by_season_None plain_casts three_games
            (rows_of (games_table (working three_games))) _ _ _ _);
    vm_compute; reflexivity.
Defined.

(** A game that [insert_game] has written is found by the query for its
    season in the same scope: when the server reads the season value as the
    text the row stores, the query's result contains the game's id. *)
Theorem inserted_game_is_found pg it season t s s1 row :
  truthy (adapter_get it "game_id") = true ->
  insert_game pg it s = (Return tt, s1) ->
  game_row_of pg it = inr row ->
  game_season row = Some t ->
  param (to_operand pg) season = Some (Some t) ->
  exists ids,
    get_id_games_by_season pg season s1 = (Return ids, s1) /\
    game_id row ∈ ids.
Proof.
  intros Htruthy H1 Hrow Hseason Hop.
  change (insert_game pg it s) with (run_writer pg GameWriter it s) in H1.
  rewrite run_writer_guarded in H1.
  apply guarded_write_Return in H1 as (d & seq & Hs & -> & Hu & Ho & Hab);
    [|by simpl; unfold all; simpl; rewrite Htruthy].
  simpl in Hs. apply sql_insert_game_ok in Hs as (rows & r & Ht & Hv & _ & -> & _).
  unfold game_row_of in Hrow. rewrite Hrow in Hv. simplify_eq.
  eexists. split.
  - by apply (get_id_games_by_season_run pg season _
               (on_conflict_do_update game_id r rows) (Some t)).
  - apply elem_of_remove_dups. apply list_elem_of_fmap. exists r. split; [done|].
    apply list_elem_of_filter. split; [by split; [eexists|]|].
    apply do_update_row_in.
Qed.

Lemma inserted_game_is_found_witness :
  exists ids,
    get_id_games_by_season plain_casts (PyStr "2023")
      (snd (insert_game plain_casts (game 10 "2023" 80) three_games))
    = (Return ids, snd (insert_game plain_casts (game 10 "2023" 80) three_games)) /\
    10 ∈ ids.
Proof.
  refine (inserted_game_is_found plain_casts (game 10 "2023" 80) (PyStr "2023") "2023"
            three_games
            (snd (insert_game plain_casts (game 10 "2023" 80) three_games))
            {| game_id := 10; game_date := None; game_time := None;
               home_team_id := None; away_team_id := None;
               home_team_score := Some 80; away_team_score := None;
               game_round := None; game_stage := None; game_season := Some "2023";
               game_arena := None; game_link := None |}
            _ _ _ _ _);
    vm_compute; reflexivity.
Defined.

(** ** A manager used outside a [with] statement *)

(** On a manager as [__init__] leaves it (no cursor, no connection) every
    method raises [AttributeError]. A writer whose check passes leaves no
    trace: the four writers that catch [psycopg2.Error] let the exception
    through, and [insert_shot], which catches it, fails again on its own
    rollback before it logs. [create_tables] and the query log the error
    first. A writer whose check fails still just warns. *)
Theorem methods_without_scope pg s :
  let s0 := snd (__init__ s) in
  (forall w it,
     all (adapter_get it <$> required_fields w) = true ->
     run_writer pg w it s0 = (Raise AttributeError, s0)) /\
  (forall w it,
     all (adapter_get it <$> required_fields w) = false ->
     run_writer pg w it s0 = (Return tt, add_log s0 (skip_warning w))) /\
  create_tables s0 =
    (Raise AttributeError,
     add_log s0 {| log_level_of := ERROR; log_site := "create_tables";
                   log_exn := Some AttributeError |}) /\
  (forall season,
     get_id_games_by_season pg season s0 =
       (Raise AttributeError,
        add_log s0 {| log_level_of := ERROR; log_site := "get_id_games_by_season";
                      log_exn := Some AttributeError |})) /\
  __exit__ None s0 = (Return tt, s0).
Proof.
  simpl. repeat split.
  - intros w it Ha. rewrite run_writer_guarded, guarded_write_send by done.
    destruct w; reflexivity.
  - intros w it Ha. rewrite run_writer_guarded. by apply guarded_write_skip.
Qed.

Lemma methods_without_scope_witness :
  insert_shot plain_casts shot_7 (snd (__init__ (initial_state empty_schema)))
  = (Raise AttributeError, snd (__init__ (initial_state empty_schema))).
Proof.
  refine (proj1 (methods_without_scope plain_casts (initial_state empty_schema))
            ShotWriter shot_7 _).
  vm_compute; reflexivity.
Defined.

(** ** The configuration block *)

(** [DB_CONFIG] is built exactly when the four required variables are set;
    the port is DB_PORT when set and 5432 otherwise. When one is absent the
    import ends in [SystemExit] for the first absent one in the order
    DB_HOST, DB_NAME, DB_USER, DB_PASS; DB_PORT is never the reason. *)
Theorem DB_CONFIG_required_variables (env : environ) :
  ((forall k, k ∈ required_variables -> is_Some (env !! k)) ->
   exists host database user password,
     env !! "DB_HOST" = Some host /\ env !! "DB_NAME" = Some database /\
     env !! "DB_USER" = Some user /\ env !! "DB_PASS" = Some password /\
     DB_CONFIG env =
     Configured {| cfg_host := host; cfg_database := database; cfg_user := user;
                   cfg_password := password;
                   cfg_port := default "5432" (env !! "DB_PORT") |}) /\
  (forall k, k ∈ required_variables -> env !! k = None ->
   exists before after,
     required_variables = before ++ after /\
     (forall k', k' ∈ before -> is_Some (env !! k')) /\
     exists k0 rest, after = k0 :: rest /\ env !! k0 = None /\
       DB_CONFIG env = SystemExit k0).
Proof.
  unfold required_variables, DB_CONFIG. split.
  - intros Hall.
    destruct (Hall "DB_HOST") as [h ->]; [repeat constructor|].
    destruct (Hall "DB_NAME") as [n ->]; [repeat constructor|].
    destruct (Hall "DB_USER") as [u ->]; [repeat constructor|].
    destruct (Hall "DB_PASS") as [p ->]; [repeat constructor|].
    by eexists _, _, _, _.
  - intros k Hk Hnone.
    destruct (env !! "DB_HOST") as [h|] eqn:Hh.
    2:{ exists [], ["DB_HOST"; "DB_NAME"; "DB_USER"; "DB_PASS"].
        split; [done|]. split; [by intros ? ?%elem_of_nil|]. by eexists _, _. }
    destruct (env !! "DB_NAME") as [n|] eqn:Hn.
    2:{ exists ["DB_HOST"], ["DB_NAME"; "DB_USER"; "DB_PASS"].
        split; [done|]. split; [|by eexists _, _].
        intros k' ->%list_elem_of_singleton. by rewrite Hh. }
    destruct (env !! "DB_USER") as [u|] eqn:Hu.
    2:{ exists ["DB_HOST"; "DB_NAME"], ["DB_USER"; "DB_PASS"].
        split; [done|]. split; [|by eexists _, _].
        intros k' Hk'. repeat (apply elem_of_cons in Hk' as [->|Hk']; [by eexists|]).
        by apply elem_of_nil in Hk'. }
    destruct (env !! "DB_PASS") as [p|] eqn:Hp.
    2:{ exists ["DB_HOST"; "DB_NAME"; "DB_USER"], ["DB_PASS"].
        split; [done|]. split; [|by eexists _, _].
        intros k' Hk'. repeat (apply elem_of_cons in Hk' as [->|Hk']; [by eexists|]).
        by apply elem_of_nil in Hk'. }
    repeat (apply elem_of_cons in Hk as [->|Hk]; [congruence|]).
    by apply elem_of_nil in Hk.
Qed.

Lemma DB_CONFIG_required_variables_witness :
  DB_CONFIG (<["DB_HOST" := "db"]> (<["DB_NAME" := "nbb"]> (<["DB_USER" := "u"]>
              (<["DB_PASS" := "p"]> ∅))))
  = Configured {| cfg_host := "db"; cfg_database := "nbb"; cfg_user := "u";
                  cfg_password := "p"; cfg_port := "5432" |} /\
  DB_CONFIG (<["DB_HOST" := "db"]> (<["DB_PASS" := "p"]> (<["DB_PORT" := "6543"]> ∅)))
  = SystemExit "DB_NAME".
Proof.
  split.
  - destruct (proj1 (DB_CONFIG_required_variables
                       (<["DB_HOST" := "db"]> (<["DB_NAME" := "nbb"]>
                          (<["DB_USER" := "u"]> (<["DB_PASS" := "p"]> ∅))))))
      as (h & n & u & p & Hh & Hn & Hu & Hp & Hcfg).
    + intros k Hk.
      repeat (apply elem_of_cons in Hk as [->|Hk]; [by eexists|]).
      by apply elem_of_nil in Hk.
    + vm_compute; reflexivity.
  - vm_compute; reflexivity.
Defined.

(** ** [close] inside a scope *)

(** A body that ends by calling [close] breaks the scope's exit: the
    server drops the uncommitted changes with the connection, [__exit__]
    closes the cursor again and then fails on [commit] with
    [InterfaceError], which leaves the [with] statement; nothing of the
    body is committed and the pool does not get the connection back. *)
Theorem close_in_scope_breaks_exit {A} (body : M A) s0 s1 a s2 :
  __enter__ s0 = (Return tt, s1) ->
  body s1 = (Return a, s2) ->
  self_conn s2 = true -> self_cur s2 = true ->
  close_fault (faults s2) = None ->
  exists s3,
    with_DatabaseManager (x <- body ;; close ;; ret x) s0 = (Raise InterfaceError, s3) /\
    committed s3 = committed s2 /\ working s3 = committed s2 /\
    pool_used s3 = pool_used s2 /\ cur_open s3 = false.
Proof.
  intros He Hb Hc Hu Hcl.
  assert (Hbody : (x <- body ;; close ;; ret x) s1 =
    (Return a,
     set_faults (set_tx (set_cur_open s2 false) (committed s2) (committed s2) false)
       {| getconn_fault := getconn_fault (faults s2);
          close_fault := None;
          commit_fault := Some InterfaceError;
          rollback_fault := Some InterfaceError;
          putconn_fault := putconn_fault (faults s2) |})).
  { unfold bind at 1. rewrite Hb. unfold close, conn_close. unfold_M. simpl.
    rewrite Hu, Hcl. simpl. rewrite Hc. simpl. rewrite Hcl. reflexivity. }
  rewrite (with_unfold _ s0 s1 _ _ He Hbody).
  unfold __exit__. unfold_M. simpl. rewrite Hu. simpl. rewrite Hc. simpl.
  rewrite Hc. simpl. eexists. split; [reflexivity|]. by repeat split.
Qed.

Lemma close_in_scope_breaks_exit_witness :
  exists s3,
    with_DatabaseManager (x <- insert_team plain_casts lakers ;; close ;; ret x)
      (initial_state empty_schema) = (Raise InterfaceError, s3) /\
    committed s3 = empty_schema /\ pool_used s3 = 1%nat.
Proof.
  edestruct (close_in_scope_breaks_exit (insert_team plain_casts lakers)
               (initial_state empty_schema)
               (snd (__enter__ (initial_state empty_schema)))
               tt
               (snd (insert_team plain_casts lakers
                       (snd (__enter__ (initial_state empty_schema))))))
    as (s3 & Hrun & Hcm & _ & Hp & _); try (vm_compute; reflexivity).
  exists s3. split; [exact Hrun|]. rewrite Hcm, Hp. split; vm_compute; reflexivity.
Defined.

(** ** A caller that catches a writer's failure *)

(** When the body catches the [psycopg2.Error] of a writer and goes on, the
    writes made before the failure are lost and the writes made after it
    are committed: the writer rolled the transaction back before raising,
    so the later calls start from the committed database, and the scope
    commits what they wrote. *)
Theorem caught_failure_loses_earlier_writes pg cs1 w it cs2 s0 s1 s2 e s3 s4 :
  __enter__ s0 = (Return tt, s1) ->
  run_calls pg cs1 s1 = (Return tt, s2) ->
  run_writer pg w it s2 = (Raise e, s3) ->
  is_psycopg2_Error e = true ->
  run_calls pg cs2 s3 = (Return tt, s4) ->
  faults s0 = no_faults ->
  working s3 = committed s0 /\
  exists s_end,
    with_DatabaseManager
      (try_except (run_calls pg cs1 ;; run_writer pg w it) is_Exception
         (fun _ => ret tt) ;;
       run_calls pg cs2) s0 = (Return tt, s_end) /\
    committed s_end = working s4.
Proof.
  intros He H1 Hw Hpe H2 Hf.
  pose proof (enter_Return _ _ He) as (Hc1&Hu1&_&_&Hcm1&_&Hf1&_).
  pose proof (run_calls_same_scope pg _ _ _ _ H1) as (Hcm2&Hf2&Hc2&Hu2&_).
  pose proof (run_writer_same_scope pg _ _ _ _ _ Hw) as (Hcm3&Hf3&Hc3&Hu3&_).
  pose proof (run_calls_same_scope pg _ _ _ _ H2) as (Hcm4&Hf4&Hc4&Hu4&_).
  assert (Hfs : faults s2 = no_faults) by congruence.
  pose proof Hw as Hw'. rewrite run_writer_guarded in Hw'.
  apply guarded_write_raise in Hw' as (Hw3&_&Hab3&_); [|by rewrite Hfs|done].
  split; [congruence|].
  assert (Hab4 : tx_aborted s4 = false).
  { eapply run_calls_not_aborted; [| |exact Hab3|exact H2]; [congruence|].
    rewrite Hf3, Hfs. reflexivity. }
  assert (Hbody :
    (try_except (run_calls pg cs1 ;; run_writer pg w it) is_Exception
       (fun _ => ret tt) ;; run_calls pg cs2) s1 = (Return tt, s4)).
  { unfold bind at 1. unfold try_except. unfold bind at 1. rewrite H1, Hw.
    rewrite (psycopg2_Error_is_Exception e Hpe). unfold ret. exact H2. }
  rewrite (with_unfold _ s0 s1 _ s4 He Hbody).
  destruct (exit_normal s4) as (s_end & -> & _ & _ & Hcm & _); try congruence;
    try (rewrite Hf4, Hf3, Hfs; reflexivity).
  exists s_end. split; [done|]. by rewrite Hcm, Hab4.
Qed.

Lemma caught_failure_loses_earlier_writes_witness :
  exists s_end,
    with_DatabaseManager
      (try_except
         (run_calls plain_casts [Insert TeamWriter lakers] ;;
          run_writer plain_casts ShotWriter shot_7)
         is_Exception (fun _ => ret tt) ;;
       run_calls plain_casts [Insert PlayerWriter player_7])
      (initial_state empty_schema) = (Return tt, s_end) /\
    teams_table (committed s_end) = Some [] /\
    players_table (committed s_end) =
      Some [{| player_id := 7; player_name := Some "Ana"; player_icon_url := None |}].
Proof.
  edestruct (caught_failure_loses_earlier_writes plain_casts
               [Insert TeamWriter lakers] ShotWriter shot_7
               [Insert PlayerWriter player_7]
               (initial_state empty_schema)
               (snd (__enter__ (initial_state empty_schema)))
               (snd (run_calls plain_casts [Insert TeamWriter lakers]
                       (snd (__enter__ (initial_state empty_schema)))))
               ForeignKeyViolation
               (snd (run_writer plain_casts ShotWriter shot_7
                       (snd (run_calls plain_casts [Insert TeamWriter lakers]
                               (snd (__enter__ (initial_state empty_schema)))))))
               (snd (run_calls plain_casts [Insert PlayerWriter player_7]
                       (snd (run_writer plain_casts ShotWriter shot_7
                               (snd (run_calls plain_casts [Insert TeamWriter lakers]
                                       (snd (__enter__ (initial_state empty_schema))))))))))
    as (_ & s_end & Hrun & Hcm); try (vm_compute; reflexivity).
  exists s_end. split; [exact Hrun|]. rewrite Hcm. split; vm_compute; reflexivity.
Defined.

(** ** How a call changes the transaction's view *)

Section CallEffects.

Context (pg : server_casts).

(** A failed statement of a writer never moves the shot sequence back. *)
Lemma writer_stmt_error_seq w it d seq e seq' :
  writer_stmt pg w it d seq = StmtErr e seq' -> seq <= seq'.
Proof.
  destruct w; simpl;
    unfold sql_insert_team, sql_insert_player, sql_insert_player_team_by_season,
      sql_insert_game, sql_insert_shot; intros H;
    repeat (case_match; simplify_eq); lia.
Qed.

Lemma guarded_write_effect w it s r s' :
  guarded_write pg w it s = (r, s') -> call_effect pg (Insert w it) s s'.
Proof.
  intros H. unfold guarded_write in H.
  destruct (all (adapter_get it <$> required_fields w)); simpl in H.
  2:{ left. crush_M. split; [by left|lia]. }
  unfold try_except, cur_execute in H.
  destruct (negb (self_cur s)).
  { left. crush_M; (split; [by (left + right)|simpl; lia]). }
  destruct (negb (cur_open s)).
  { left. crush_M; (split; [by (left + right)|simpl; lia]). }
  destruct (tx_aborted s).
  { left. crush_M; (split; [by (left + right)|simpl; lia]). }
  destruct (writer_stmt pg w it (working s) (shots_seq s)) as [d seq []|e seq] eqn:Hs.
  - simplify_eq. right. right. by exists w, it.
  - apply writer_stmt_error_seq in Hs. left.
    crush_M; (split; [by (left + right)|simpl; lia]).
Qed.

Lemma run_call_effect c s r s' :
  run_call pg c s = (r, s') -> call_effect pg c s s'.
Proof.
  destruct c; simpl.
  - unfold create_tables, try_except, bind at 1, cur_execute.
    destruct (negb (self_cur s)).
    { intros H. left. crush_M; (split; [by (left + right)|simpl; lia]). }
    destruct (negb (cur_open s)).
    { intros H. left. crush_M; (split; [by (left + right)|simpl; lia]). }
    destruct (tx_aborted s).
    { intros H. left. crush_M; (split; [by (left + right)|simpl; lia]). }
    rewrite sql_script_schema_ddl. intros H. right. left. crush_M.
  - unfold bind at 1, get_id_games_by_season, try_except, bind at 1, cur_execute.
    destruct (negb (self_cur s)).
    { intros H. left. crush_M; (split; [by (left + right)|simpl; lia]). }
    destruct (negb (cur_open s)).
    { intros H. left. crush_M; (split; [by (left + right)|simpl; lia]). }
    destruct (tx_aborted s).
    { intros H. left. crush_M; (split; [by (left + right)|simpl; lia]). }
    unfold sql_select_game_ids. intros H. left.
    crush_M; (split; [by (left + right)|simpl; lia]).
  - rewrite run_writer_guarded. apply guarded_write_effect.
  - unfold raise. intros. simplify_eq. left. split; [by left|lia].
Qed.

End CallEffects.

(** ** Primary keys stay unique *)

Section PrimaryKeys.

Context (pg : server_casts).

Lemma NoDup_fmap_snoc {R K : Type} (key : R -> K) row rows :
  NoDup (key <$> rows) -> key row ∉ key <$> rows ->
  NoDup (key <$> (rows ++ [row])).
Proof.
  intros Hnd Hout. rewrite fmap_app. apply NoDup_app. split; [done|]. split.
  - intros x Hx Hx'. apply list_elem_of_singleton in Hx'. by subst.
  - apply NoDup_singleton.
Qed.

Lemma create_missing_pk_unique d : pk_unique d -> pk_unique (create_missing d).
Proof.
  unfold pk_unique, team_ids, player_ids, roster_keys, game_ids, shot_ids.
  by destruct d as [[?|] [?|] [?|] [?|] [?|]].
Qed.

(** A successful statement of a writer keeps every primary key unique. *)
Lemma writer_stmt_pk_unique w it d seq d' seq' :
  writer_stmt pg w it d seq = StmtOk d' seq' tt ->
  pk_unique d -> pk_unique d'.
Proof.
  unfold pk_unique, team_ids, player_ids, roster_keys, game_ids, shot_ids.
  intros Hs (Ht & Hp & Hr & Hg & Hsh). destruct w; simpl in Hs.
  - apply sql_insert_team_ok in Hs as (rows & row & Htab & _ & -> & _).
    rewrite Htab in Ht. simpl in *. repeat split; try done.
    by apply do_nothing_keeps_NoDup.
  - apply sql_insert_player_ok in Hs as (rows & row & Htab & _ & -> & _).
    rewrite Htab in Hp. simpl in *. repeat split; try done.
    by apply do_nothing_keeps_NoDup.
  - apply sql_insert_player_team_by_season_ok in Hs
      as (rows & row & Htab & _ & _ & [(_ & ->)|(Hout & _ & ->)]); [done|].
    rewrite Htab in Hr. simpl in *. repeat split; try done.
    by apply NoDup_fmap_snoc.
  - apply sql_insert_game_ok in Hs as (rows & row & Htab & _ & _ & -> & _).
    rewrite Htab in Hg. simpl in *. repeat split; try done.
    by apply do_update_keeps_NoDup.
  - apply sql_insert_shot_ok in Hs as (rows & row & Htab & _ & _ & Hc & -> & _).
    rewrite Htab in Hsh. simpl in *. repeat split; try done.
    apply NoDup_fmap_snoc; [done|]. by eapply shot_constraints_fresh.
Qed.

Lemma run_call_pk_unique c s r s' :
  run_call pg c s = (r, s') ->
  pk_unique (working s) -> pk_unique (committed s) ->
  pk_unique (working s') /\ pk_unique (committed s').
Proof.
  intros H Hw Hc.
  pose proof (run_call_same_scope pg _ _ _ _ H) as (Hcm & _).
  rewrite Hcm. split; [|done].
  apply run_call_effect in H as [([Heq|Heq] & _)|[(Heq & _)|(w & it & _ & Hs)]].
  - by rewrite Heq.
  - by rewrite Heq.
  - rewrite Heq. by apply create_missing_pk_unique.
  - by eapply writer_stmt_pk_unique.
Qed.

Lemma run_calls_pk_unique cs s r s' :
  run_calls pg cs s = (r, s') ->
  pk_unique (working s) -> pk_unique (committed s) ->
  pk_unique (working s') /\ pk_unique (committed s').
Proof.
  revert s. induction cs as [|c cs IH]; intros s; simpl.
  - unfold ret. intros. by simplify_eq.
  - unfold bind. destruct (run_call pg c s) as [[a|e] s1] eqn:E; intros H Hw Hc;
      destruct (run_call_pk_unique _ _ _ _ E Hw Hc) as [Hw1 Hc1].
    + by eapply IH.
    + by simplify_eq.
Qed.

(** The committed database a [with] statement leaves is the one it found,
    or the body's last view of the transaction. *)
Lemma with_committed {A} (body : M A) s0 r s' :
  with_DatabaseManager body s0 = (r, s') ->
  committed s' = committed s0 \/
  exists s1 r' s2,
    __enter__ s0 = (Return tt, s1) /\ body s1 = (r', s2) /\
    (committed s' = committed s2 \/ committed s' = working s2).
Proof.
  unfold with_DatabaseManager. intros H.
  destruct (__enter__ s0) as [[[]|e] s1] eqn:He.
  2:{ left. simplify_eq. unfold __enter__ in He. crush_M. }
  right. destruct (body s1) as [r' s2] eqn:Hb. exists s1, r', s2.
  split; [done|]. split; [done|].
  destruct r' as [a|e].
  - destruct (__exit__ None s2) as [[[]|e'] s3] eqn:Hx;
      simplify_eq; unfold __exit__ in Hx; crush_M; auto.
  - left. destruct (__exit__ (Some e) s2) as [[[]|e'] s3] eqn:Hx;
      simplify_eq; by eapply exit_failure_commits_nothing.
Qed.

End PrimaryKeys.

(** No method breaks a primary key: when no two rows of a relation share
    their key before, in the transaction's view and in the committed
    database, the same holds after any sequence of method calls, and the
    committed database a scope around such calls leaves has unique keys
    as well, however the scope ends. *)
Theorem primary_keys_stay_unique pg cs :
  (forall s r s',
     pk_unique (working s) -> pk_unique (committed s) ->
     run_calls pg cs s = (r, s') ->
     pk_unique (working s') /\ pk_unique (committed s')) /\
  (forall s0 r s',
     pk_unique (committed s0) ->
     with_DatabaseManager (run_calls pg cs) s0 = (r, s') ->
     pk_unique (committed s')).
Proof.
  split.
  - intros s r s' Hw Hc H. by eapply run_calls_pk_unique.
  - intros s0 r s' Hc H.
    apply with_committed in H as [->|(s1 & r' & s2 & He & Hb & Hcase)]; [done|].
    pose proof (enter_Return _ _ He) as (_&_&_&_&Hcm&Hw&_).
    destruct (run_calls_pk_unique pg _ _ _ _ Hb) as [Hw2 Hc2]; try congruence.
    by destruct Hcase as [-> | ->].
Qed.

Lemma primary_keys_stay_unique_witness :
  NoDup (team_ids (working (snd (run_calls plain_casts
                                   [Insert TeamWriter lakers;
                                    Insert TeamWriter lakers_renamed;
                                    Insert ShotWriter shot_7]
                                   (in_scope empty_schema))))).
Proof.
  refine (proj1 (proj1 (proj1 (primary_keys_stay_unique plain_casts
            [Insert TeamWriter lakers; Insert TeamWriter lakers_renamed;
             Insert ShotWriter shot_7])
            (in_scope empty_schema)
            (fst (run_calls plain_casts
                    [Insert TeamWriter lakers; Insert TeamWriter lakers_renamed;
                     Insert ShotWriter shot_7]
                    (in_scope empty_schema)))
            _ _ _ _))).
  - repeat split; constructor.
  - repeat split; constructor.
  - vm_compute; reflexivity.
Defined.

(** ** Foreign keys stay satisfied *)

Section ForeignKeys.

Context (pg : server_casts).

Lemma fk_ok_mono {K : Type} `{EqDecision K} (v : option K) keys keys' :
  (forall k, k ∈ keys -> k ∈ keys') ->
  fk_ok v keys = true -> fk_ok v keys' = true.
Proof.
  intros Hsub. destruct v as [k|]; simpl; [|done].
  intros H. apply bool_decide_eq_true_1 in H. apply bool_decide_eq_true_2. auto.
Qed.

Lemma do_nothing_keys_mono {R K : Type} `{EqDecision K} (key : R -> K) row rows k :
  k ∈ key <$> rows -> k ∈ key <$> on_conflict_do_nothing key row rows.
Proof.
  intros H. unfold on_conflict_do_nothing. case_bool_decide; [done|].
  rewrite fmap_app. apply elem_of_app. by left.
Qed.

Lemma do_update_keys_mono {R K : Type} `{EqDecision K} (key : R -> K) row rows k :
  k ∈ key <$> rows -> k ∈ key <$> on_conflict_do_update key row rows.
Proof.
  intros H. destruct (decide (key row ∈ key <$> rows)) as [Hin|Hout].
  - by rewrite do_update_keys.
  - unfold on_conflict_do_update. rewrite bool_decide_eq_false_2 by done.
    rewrite fmap_app. apply elem_of_app. by left.
Qed.

Lemma do_update_elem {R K : Type} `{EqDecision K} (key : R -> K) row rows r :
  r ∈ on_conflict_do_update key row rows -> r = row \/ r ∈ rows.
Proof.
  unfold on_conflict_do_update. case_bool_decide.
  - intros (x & -> & Hx)%list_elem_of_fmap. case_bool_decide; auto.
  - intros [?|Hr%list_elem_of_singleton]%elem_of_app; auto.
Qed.

Lemma fk_ok_Some_elem {K : Type} `{EqDecision K} (k : K) keys :
  fk_ok (Some k) keys = true -> k ∈ keys.
Proof. simpl. apply bool_decide_eq_true_1. Qed.

Lemma create_missing_fk_closed d : fk_closed d -> fk_closed (create_missing d).
Proof.
  unfold fk_closed, team_ids, player_ids, game_ids.
  by destruct d as [[?|] [?|] [?|] [?|] [?|]].
Qed.

(** A successful statement of a writer leaves no dangling reference. *)
Lemma writer_stmt_fk_closed w it d seq d' seq' :
  writer_stmt pg w it d seq = StmtOk d' seq' tt ->
  fk_closed d -> fk_closed d'.
Proof.
  unfold fk_closed, team_ids, player_ids, game_ids.
  intros Hs (Hr & Hg & Hsh). destruct w; simpl in Hs.
  - apply sql_insert_team_ok in Hs as (rows & row & Htab & _ & -> & _).
    rewrite Htab in *. simpl in *.
    assert (Hmono : forall k, k ∈ team_id <$> rows ->
              k ∈ team_id <$> on_conflict_do_nothing team_id row rows)
      by (intros; by apply do_nothing_keys_mono).
    split; [|split].
    + intros r Hin. destruct (Hr r Hin). auto.
    + intros r Hin. destruct (Hg r Hin). split; by eapply fk_ok_mono.
    + intros r Hin. destruct (Hsh r Hin) as (?&?&?).
      repeat split; try done. by eapply fk_ok_mono.
  - apply sql_insert_player_ok in Hs as (rows & row & Htab & _ & -> & _).
    rewrite Htab in *. simpl in *.
    assert (Hmono : forall k, k ∈ player_id <$> rows ->
              k ∈ player_id <$> on_conflict_do_nothing player_id row rows)
      by (intros; by apply do_nothing_keys_mono).
    split; [|split].
    + intros r Hin. destruct (Hr r Hin). auto.
    + done.
    + intros r Hin. destruct (Hsh r Hin) as (?&?&?).
      repeat split; try done. by eapply fk_ok_mono.
  - apply sql_insert_player_team_by_season_ok in Hs
      as (rows & row & Htab & _ & _ & [(_ & ->)|(_ & Hfk & ->)]); [done|].
    rewrite Htab in *. simpl in *. split; [|done].
    intros r [Hin|Heq%list_elem_of_singleton]%elem_of_app; [by apply Hr|].
    subst r.
    unfold roster_fks in Hfk. sum_cases Hfk; try discriminate.
    repeat match goal with
           | E : check _ _ = inr _ |- _ => apply check_ok, fk_ok_Some_elem in E
           end.
    by split.
  - apply sql_insert_game_ok in Hs as (rows & row & Htab & _ & Hfk & -> & _).
    rewrite Htab in *. simpl in *. split; [done|]. split.
    + intros r [Heq|Hin]%do_update_elem; [subst r|by apply Hg].
      unfold game_fks in Hfk. sum_cases Hfk; try discriminate.
      repeat match goal with
             | E : check _ _ = inr _ |- _ => apply check_ok in E
             end.
      by split.
    + intros r Hin. destruct (Hsh r Hin) as (?&?&?).
      repeat split; try done. eapply fk_ok_mono; [|done].
      intros k Hk. by apply do_update_keys_mono.
  - apply sql_insert_shot_ok in Hs as (rows & row & Htab & _ & _ & Hc & -> & _).
    rewrite Htab in *. simpl in *. split; [done|]. split; [done|].
    intros r [Hin|Heq%list_elem_of_singleton]%elem_of_app; [by apply Hsh|].
    subst r.
    unfold shot_constraints in Hc. sum_cases Hc; try discriminate.
    repeat match goal with
           | E : check (fk_ok _ _) _ = inr _ |- _ => apply check_ok in E
           end.
    by repeat split.
Qed.

Lemma run_calls_fk_closed cs s r s' :
  run_calls pg cs s = (r, s') ->
  fk_closed (working s) -> fk_closed (committed s) ->
  fk_closed (working s') /\ fk_closed (committed s').
Proof.
  revert s. induction cs as [|c cs IH]; intros s; simpl.
  - unfold ret. intros. by simplify_eq.
  - unfold bind. destruct (run_call pg c s) as [[a|e] s1] eqn:E; intros H Hw Hc.
    all: assert (fk_closed (working s1) /\ fk_closed (committed s1)) as [Hw1 Hc1].
    all: try (pose proof (run_call_same_scope pg _ _ _ _ E) as (Hcm & _);
              rewrite Hcm; split; [|done];
              apply run_call_effect in E
                as [([Heq|Heq] & _)|[(Heq & _)|(w & it & _ & Hs)]];
              [by rewrite Heq|by rewrite Heq
              |rewrite Heq; by apply create_missing_fk_closed
              |by eapply writer_stmt_fk_closed]).
    + by eapply IH.
    + by simplify_eq.
Qed.

End ForeignKeys.

(** No method leaves a dangling reference: when every roster link, game
    and shot references stored players, teams and games before, in the
    transaction's view and in the committed database, the same holds after
    any sequence of method calls, and in the committed database a scope
    around such calls leaves, however the scope ends. *)
Theorem foreign_keys_stay_satisfied pg cs :
  (forall s r s',
     fk_closed (working s) -> fk_closed (committed s) ->
     run_calls pg cs s = (r, s') ->
     fk_closed (working s') /\ fk_closed (committed s')) /\
  (forall s0 r s',
     fk_closed (committed s0) ->
     with_DatabaseManager (run_calls pg cs) s0 = (r, s') ->
     fk_closed (committed s')).
Proof.
  split.
  - intros s r s' Hw Hc H. by eapply run_calls_fk_closed.
  - intros s0 r s' Hc H.
    apply with_committed in H as [->|(s1 & r' & s2 & He & Hb & Hcase)]; [done|].
    pose proof (enter_Return _ _ He) as (_&_&_&_&Hcm&Hw&_).
    destruct (run_calls_fk_closed pg _ _ _ _ Hb) as [Hw2 Hc2]; try congruence.
    by destruct Hcase as [-> | ->].
Qed.

Lemma foreign_keys_stay_satisfied_witness :
  fk_closed (working (snd (run_calls plain_casts
                             [Insert TeamWriter lakers; Insert PlayerWriter player_7;
                              Insert RosterWriter roster_7;
                              Insert GameWriter (game 1 "2023" 80);
                              Insert ShotWriter shot_7]
                             (in_scope empty_schema)))).
Proof.
  refine (proj1 (proj1 (foreign_keys_stay_satisfied plain_casts
            [Insert TeamWriter lakers; Insert PlayerWriter player_7;
             Insert RosterWriter roster_7;
             Insert GameWriter (game 1 "2023" 80);
             Insert ShotWriter shot_7])
            (in_scope empty_schema)
            (fst (run_calls plain_casts
                    [Insert TeamWriter lakers; Insert PlayerWriter player_7;
                     Insert RosterWriter roster_7;
                     Insert GameWriter (game 1 "2023" 80);
                     Insert ShotWriter shot_7]
                    (in_scope empty_schema)))
            _ _ _ _)).
  - split; [|split]; intros x Hx; by apply elem_of_nil in Hx.
  - split; [|split]; intros x Hx; by apply elem_of_nil in Hx.
  - vm_compute; reflexivity.
Defined.

(** ** Each writer writes to its own relation *)

Section OwnTable.

Context (pg : server_casts).

Lemma writer_stmt_without_table w it d seq d' seq' :
  writer_stmt pg w it d seq = StmtOk d' seq' tt ->
  without_table (writer_table w) d' = without_table (writer_table w) d.
Proof.
  intros Hs. destruct w; simpl in Hs.
  - by apply sql_insert_team_ok in Hs as (rows & row & _ & _ & -> & _).
  - by apply sql_insert_player_ok in Hs as (rows & row & _ & _ & -> & _).
  - by apply sql_insert_player_team_by_season_ok in Hs
      as (rows & row & _ & _ & _ & [(_ & ->)|(_ & _ & ->)]).
  - by apply sql_insert_game_ok in Hs as (rows & row & _ & _ & _ & -> & _).
  - by apply sql_insert_shot_ok in Hs as (rows & row & _ & _ & _ & _ & -> & _).
Qed.

End OwnTable.

(** A writer that returns has changed, in the transaction's view, at most
    the relation it writes to: the four other relations are exactly as
    they were. *)
Theorem writer_changes_only_its_table pg w it s s' :
  run_writer pg w it s = (Return tt, s') ->
  without_table (writer_table w) (working s')
  = without_table (writer_table w) (working s).
Proof.
  intros H. rewrite run_writer_guarded in H.
  destruct (all (adapter_get it <$> required_fields w)) eqn:Ha.
  - apply guarded_write_Return in H as (d & seq & Hs & -> & _); [|done].
    simpl. by eapply writer_stmt_without_table.
  - rewrite guarded_write_skip in H by done. by simplify_eq.
Qed.

Lemma writer_changes_only_its_table_witness :
  without_table games
    (working (snd (insert_game plain_casts (game 13 "2024" 55) three_games)))
  = without_table games (working three_games).
Proof.
  refine (writer_changes_only_its_table plain_casts GameWriter (game 13 "2024" 55)
            three_games
            (snd (insert_game plain_casts (game 13 "2024" 55) three_games)) _).
  vm_compute; reflexivity.
Defined.

(** ** Shot ids never collide *)

Section ShotSequence.

Context (pg : server_casts).

(** A successful statement of a writer keeps the sequence ahead of the
    stored shot ids and drops no relation. *)
Lemma writer_stmt_seq_ahead w it d seq d' seq' :
  writer_stmt pg w it d seq = StmtOk d' seq' tt ->
  (forall id, id ∈ shot_ids d -> id <= seq) ->
  (forall id, id ∈ shot_ids d' -> id <= seq') /\ seq <= seq' /\
  (is_Some (shots_table d) -> is_Some (shots_table d')).
Proof.
  unfold shot_ids. intros Hs Hb. destruct w; simpl in Hs.
  - apply sql_insert_team_ok in Hs as (rows & row & _ & _ & -> & ->).
    simpl. repeat split; [done|lia|done].
  - apply sql_insert_player_ok in Hs as (rows & row & _ & _ & -> & ->).
    simpl. repeat split; [done|lia|done].
  - apply sql_insert_player_team_by_season_ok in Hs
      as (rows & row & _ & _ & -> & [(_ & ->)|(_ & _ & ->)]);
      simpl; (repeat split; [done|lia|done]).
  - apply sql_insert_game_ok in Hs as (rows & row & _ & _ & _ & -> & ->).
    simpl. repeat split; [done|lia|done].
  - apply sql_insert_shot_ok in Hs as (rows & row & Htab & Hv & _ & _ & -> & ->).
    rewrite Htab in Hb. simpl in *. split; [|split; [lia|by eexists]].
    intros id Hin. rewrite fmap_app in Hin.
    apply elem_of_app in Hin as [Hin|Hin%list_elem_of_singleton].
    + apply Hb in Hin. lia.
    + apply shot_values_id in Hv. lia.
Qed.

(** With the sequence ahead of the stored ids, no statement of a writer
    fails on a duplicate key. *)
Lemma writer_stmt_no_unique_violation w it d seq e seq' :
  (forall id, id ∈ shot_ids d -> id <= seq) ->
  writer_stmt pg w it d seq = StmtErr e seq' -> e <> UniqueViolation.
Proof.
  unfold shot_ids. intros Hb Hs. destruct w; simpl in Hs;
    unfold sql_insert_team, sql_insert_player, sql_insert_player_team_by_season,
      sql_insert_game, sql_insert_shot in Hs;
    repeat (case_match; simplify_eq); try done.
  - match goal with H : team_values _ _ _ _ = inl _ |- _ =>
      unfold team_values in H; sum_cases H; error_class end.
  - match goal with H : player_values _ _ _ _ = inl _ |- _ =>
      unfold player_values in H; sum_cases H; error_class end.
  - match goal with H : roster_values _ _ _ _ _ = inl _ |- _ =>
      unfold roster_values in H; sum_cases H; error_class end.
  - match goal with H : roster_fks _ _ = inl _ |- _ =>
      apply roster_fks_error in H as -> end. done.
  - match goal with H : game_values _ _ _ _ _ _ _ _ _ _ _ _ _ = inl _ |- _ =>
      unfold game_values in H; sum_cases H; error_class end.
  - match goal with H : game_fks _ _ = inl _ |- _ =>
      apply game_fks_error in H as -> end. done.
  - match goal with H : shot_values _ _ _ _ _ _ _ _ _ _ = inl _ |- _ =>
      apply shot_values_error in H as [-> | ->] end; done.
  - match goal with
    | Hv : shot_values _ _ _ _ _ _ _ _ _ _ = inr _,
      Hc : shot_constraints _ _ _ = inl _ |- _ =>
      apply shot_values_id in Hv; unfold shot_constraints in Hc;
      sum_cases Hc
    end.
    all: repeat match goal with
         | E : check (fk_ok _ _) _ = inl _ |- _ => apply check_error in E as [-> _]
         | H : inl _ = inl _ |- _ => injection H as <-
         end; try done.
    match goal with E : check (negb _) _ = inl _ |- _ =>
      apply check_error in E as [_ E] end.
    apply negb_false_iff, bool_decide_eq_true_1 in E.
    try match goal with Ht : shots_table d = Some _ |- _ => rewrite Ht in Hb end.
    simpl in Hb. apply Hb in E. lia.
Qed.

Lemma run_call_seq_ahead c s r s' :
  run_call pg c s = (r, s') -> seq_ahead s -> seq_ahead s'.
Proof.
  intros H (Hw & Hc & Hex). unfold seq_ahead.
  pose proof (run_call_same_scope pg _ _ _ _ H) as (Hcm & _). rewrite Hcm.
  apply run_call_effect in H as [([Heq|Heq] & Hle)|[(Heq & Hsq)|(w & it & _ & Hs)]].
  - rewrite Heq. split; [|split; [|done]].
    + intros id Hin. apply Hw in Hin. lia.
    + intros id Hin. apply Hc in Hin. lia.
  - rewrite Heq. split; [|split; [|done]].
    + intros id Hin. apply Hc in Hin. lia.
    + intros id Hin. apply Hc in Hin. lia.
  - rewrite Heq, Hsq. case_bool_decide as Hsh.
    + split; [|split; [done|by eexists]].
      intros id Hin. apply Hw. exact Hin.
    + assert (shots_table (working s) = None) as Hnone.
      { destruct (shots_table (working s)); [by destruct Hsh; eexists|done]. }
      assert (shots_table (committed s) = None) as Hcnone.
      { destruct (shots_table (committed s)) eqn:E; [|done].
        destruct Hex as [x Hx]; [by eexists|]. congruence. }
      split; [|split; [|by eexists]].
      * intros id. unfold shot_ids. simpl. rewrite Hnone. simpl.
        by intros ?%elem_of_nil.
      * intros id. unfold shot_ids. rewrite Hcnone. simpl. by intros ?%elem_of_nil.
  - destruct (writer_stmt_seq_ahead _ _ _ _ _ _ Hs Hw) as (Hw' & Hle & Hex').
    split; [done|]. split; [|by intros ?; apply Hex', Hex].
    intros id Hin. apply Hc in Hin. lia.
Qed.

Lemma run_calls_seq_ahead cs s r s' :
  run_calls pg cs s = (r, s') -> seq_ahead s -> seq_ahead s'.
Proof.
  revert s. induction cs as [|c cs IH]; intros s; simpl.
  - unfold ret. intros. by simplify_eq.
  - unfold bind. destruct (run_call pg c s) as [[a|e] s1] eqn:E; intros H Hs;
      apply (run_call_seq_ahead _ _ _ _ E) in Hs.
    + by eapply IH.
    + by simplify_eq.
Qed.

End ShotSequence.

(** The shot sequence stays ahead of every stored shot id through any
    sequence of method calls (a failed or rolled-back insert leaves a gap
    and never reuses an id), so that no writer ever raises
    [UniqueViolation]: the three do-nothing writers and the game upsert
    absorb their conflicts, and a shot always gets an id no row has. *)
Theorem shot_ids_never_collide pg :
  (forall cs s r s',
     seq_ahead s -> run_calls pg cs s = (r, s') -> seq_ahead s') /\
  (forall w it s e s',
     seq_ahead s -> rollback_fault (faults s) = None ->
     run_writer pg w it s = (Raise e, s') -> e <> UniqueViolation).
Proof.
  split.
  - intros cs s r s' Hs H. by eapply run_calls_seq_ahead.
  - intros w it s e s' (Hw & _) Hf H. rewrite run_writer_guarded in H.
    unfold guarded_write in H.
    destruct (all (adapter_get it <$> required_fields w)); simpl in H; [|crush_M].
    unfold try_except, cur_execute in H.
    destruct (negb (self_cur s)); [crush_M|].
    destruct (negb (cur_open s)); [crush_M|].
    destruct (tx_aborted s); [crush_M|].
    destruct (writer_stmt pg w it (working s) (shots_seq s)) as [d seq []|e0 seq] eqn:Hs;
      [done|].
    pose proof (writer_stmt_no_unique_violation pg _ _ _ _ _ _ Hw Hs) as Hne.
    crush_M.
Qed.

Lemma shot_ids_never_collide_witness :
  seq_ahead (snd (run_calls plain_casts
                    [Insert ShotWriter shot_7; Insert TeamWriter lakers;
                     Insert PlayerWriter player_7;
                     Insert GameWriter (game 1 "2023" 80);
                     Insert ShotWriter shot_7; CreateTables]
                    (in_scope empty_schema))).
Proof.
  refine (proj1 (shot_ids_never_collide plain_casts)
            [Insert ShotWriter shot_7; Insert TeamWriter lakers;
             Insert PlayerWriter player_7;
             Insert GameWriter (game 1 "2023" 80);
             Insert ShotWriter shot_7; CreateTables]
            (in_scope empty_schema)
            (fst (run_calls plain_casts
                    [Insert ShotWriter shot_7; Insert TeamWriter lakers;
                     Insert PlayerWriter player_7;
                     Insert GameWriter (game 1 "2023" 80);
                     Insert ShotWriter shot_7; CreateTables]
                    (in_scope empty_schema)))
            _ _ _).
  - split; [|split].
    + intros x Hx. by apply elem_of_nil in Hx.
    + intros x Hx. by apply elem_of_nil in Hx.
    + intros _. by eexists.
  - vm_compute; reflexivity.
Defined.

(** ** A rollback that raises inside a handler *)

(** When a statement fails and the handler's own [rollback] raises, the
    rollback's exception is the one the method raises, and the transaction
    stays failed. The writers call [rollback] before they log, so the
    server's error is not logged at all; [get_id_games_by_season] (like
    [create_tables]) logs first, so the server's error is in the log. *)
Theorem handler_rollback_failure pg s e seq e' :
  self_cur s = true -> self_conn s = true -> cur_open s = true ->
  tx_aborted s = false -> rollback_fault (faults s) = Some e' ->
  (forall w it,
     all (adapter_get it <$> required_fields w) = true ->
     writer_stmt pg w it (working s) (shots_seq s) = StmtErr e seq ->
     run_writer pg w it s =
     (Raise e', set_shots_seq (set_tx s (committed s) (working s) true) seq)) /\
  (forall season,
     sql_select_game_ids pg season (working s) (shots_seq s) = StmtErr e seq ->
     get_id_games_by_season pg season s =
     (Raise e',
      add_log (set_shots_seq (set_tx s (committed s) (working s) true) seq)
        {| log_level_of := ERROR; log_site := "get_id_games_by_season";
           log_exn := Some e |})).
Proof.
  intros Hu Hc Ho Hab Hf. split.
  - intros w it Ha Hs. rewrite run_writer_guarded, guarded_write_send by done.
    unfold try_except, cur_execute. rewrite Hu, Ho, Hab, Hs. cbn [negb].
    rewrite (writer_stmt_error_caught pg _ _ _ _ _ _ Hs).
    unfold_M. simpl. rewrite Hc, Hf. reflexivity.
  - intros season Hs. unfold get_id_games_by_season.
    unfold try_except, bind at 1, cur_execute. rewrite Hu, Ho, Hab, Hs. cbn [negb].
    rewrite (sql_select_game_ids_error pg _ _ _ _ _ Hs).
    unfold_M. simpl. rewrite Hc, Hf. reflexivity.
Qed.

Lemma handler_rollback_failure_witness :
  fst (insert_player_team_by_season plain_casts roster_7
         (set_faults (in_scope empty_schema) rollback_raises))
  = Raise OperationalError /\
  log (snd (insert_player_team_by_season plain_casts roster_7
              (set_faults (in_scope empty_schema) rollback_raises))) = [].
Proof.
  pose proof (proj1 (handler_rollback_failure plain_casts
                       (set_faults (in_scope empty_schema) rollback_raises)
                       ForeignKeyViolation 0 OperationalError
                       eq_refl eq_refl eq_refl eq_refl eq_refl)
                RosterWriter roster_7) as H.
  simpl run_writer in H. rewrite H; [split; reflexivity| |];
    vm_compute; reflexivity.
Defined.

(** ** A scope around method calls always ends *)

(** With a driver that answers and a connection left in the pool, a [with]
    statement around any sequence of method calls ends with the outcome of
    the calls themselves: the cursor is closed and the connection is back
    in the pool in every case, what the calls wrote is committed when they
    all returned, and nothing is committed when one of them raised. *)
Theorem scope_around_calls_ends pg cs s0 :
  faults s0 = no_faults -> (pool_used s0 < maxconn)%nat ->
  exists s1 r s2 s3,
    __enter__ s0 = (Return tt, s1) /\
    run_calls pg cs s1 = (r, s2) /\
    with_DatabaseManager (run_calls pg cs) s0 = (r, s3) /\
    cur_open s3 = false /\ pool_used s3 = pool_used s0 /\
    match r with
    | Return _ => committed s3 = working s2
    | Raise _ => committed s3 = committed s0
    end.
Proof. apply scope_of_calls. Qed.

Lemma scope_around_calls_ends_witness :
  exists s3,
    with_DatabaseManager
      (run_calls plain_casts
         [CreateTables; Insert TeamWriter lakers; Insert ShotWriter shot_7])
      (initial_state empty_db) = (Raise ForeignKeyViolation, s3) /\
    cur_open s3 = false /\ pool_used s3 = 0%nat /\ committed s3 = empty_db.
Proof.
  destruct (scope_around_calls_ends plain_casts
              [CreateTables; Insert TeamWriter lakers; Insert ShotWriter shot_7]
              (initial_state empty_db) eq_refl)
    as (s1 & r & s2 & s3 & He & Hb & Hrun & Ho & Hp & Hcm).
  - unfold maxconn. simpl. lia.
  - assert (Hr : r = Raise ForeignKeyViolation).
    { assert (Hfst : fst (with_DatabaseManager
                (run_calls plain_casts
                   [CreateTables; Insert TeamWriter lakers; Insert ShotWriter shot_7])
                (initial_state empty_db)) = Raise ForeignKeyViolation)
        by (vm_compute; reflexivity).
      rewrite Hrun in Hfst. exact Hfst. }
    subst r. exists s3. split; [exact Hrun|]. split; [exact Ho|].
    split; [exact Hp|exact Hcm].
Defined.
